(** * withSlate: editor construction and the option indirection layer

    Shallow embedding of [packages/core/src/lib/editor/withSlate.ts].

    The file under study is a composition entry point: it assigns the
    editor's identity, attaches the lookup functions, assembles the root
    plugin, hands it to [resolvePlugins], and seeds content and selection.
    Everything it imports is taken as an interface ([Imports]); the editor
    and the option stores are objects in a heap, because the source mutates
    them in place and returns the reference it was given. *)

From stdpp Require Import gmap strings list fin_maps sorting.

Set Warnings "-register-all".

(** ** JavaScript values *)

Module Js.

(** The values that flow through [any]-typed positions of the source. A
    function object is known by its identity only. *)
Inductive value :=
| Undefined
| Null
| Bool (b : bool)
| Num (n : Z)
| Str (s : string)
| Fun (h : nat)
| Obj (members : list (string * value)).

(** [v === undefined || v === null] *)
Definition nullish (v : value) : bool :=
  match v with
  | Undefined | Null => true
  | _ => false
  end.

(** [a ?? b] *)
Definition coalesce (a b : value) : value :=
  if nullish a then b else a.

(** [bag[key]] on a plain object held as a finite map. *)
Definition read (bag : gmap string value) (key : string) : value :=
  default Undefined (bag !! key).

End Js.

(** ** Document model (types of '@udecode/slate' the source mentions) *)

Inductive Node :=
| Text (text : string)
| Element (type : string) (children : list Node).

Definition Path := list nat.

Record Point := mkPoint { path : Path; offset : nat }.

Record Range := mkRange { anchor : Point; focus : Point }.

(** A selection collapsed at [p]: anchor and focus coincide. *)
Definition collapsed (p : Point) : Range := mkRange p p.


(** Heap addresses of editor objects and of option-store objects. *)
Definition loc := nat.

(** ** Reactive options store *)

Module Store.

(** Modelled from the spec: the reactive options store that
    [resolvePlugins] creates for a plugin (its code is not in this file).
    The spec gives it a state, a set of named field getters, a set of named
    field setters (a field has a getter/setter pair), a bulk-merge operation
    and a whole-state replace operation. [fields] are the names that have
    such a pair. The source finds the operations in the same two objects as
    the field accessors: [store.get.state] (line 131), [store.set.mergeState]
    (line 170) and [store.set.state] (line 172). Those two objects also answer
    to the keys they inherit ([toString], [constructor], ... for an ordinary
    object): these are [inherited]. What the spec says nothing about is kept
    as components of the store and not interpreted: [answered key args] is
    what a call of the inherited member [key] of [store.get] returns, and
    [untyped name x st] is the state left when the member [name] of
    [store.set] (an operation handed an argument that is no mapping or a
    function known by its identity only, or an inherited member) is called
    with [x] on the state [st]. *)
Record t := mk {
  fields : gset string;
  state : gmap string Js.value;
  inherited : gset string;
  answered : string → list Js.value → Js.value;
  untyped : string → Js.value → gmap string Js.value → gmap string Js.value;
}.

(** The store [s] with the state [st]. *)
Definition with_state (st : gmap string Js.value) (s : t) : t :=
  mk (fields s) st (inherited s) (answered s) (untyped s).

(** Modelled from the spec: the state getter, [store.get.state()]. *)
Definition get_state (s : t) : gmap string Js.value := state s.

(** Modelled from the spec: the bulk-merge operation,
    [store.set.mergeState(patch)]; the fields of [patch] win. *)
Definition mergeState (patch : gmap string Js.value) (s : t) : t :=
  with_state (patch ∪ state s) s.

(** Modelled from the spec: the whole-state replace operation,
    [store.set.state(fn)]; the state becomes [fn] of the current one. *)
Definition set_state (fn : gmap string Js.value → gmap string Js.value)
    (s : t) : t :=
  with_state (fn (state s)) s.

(** Modelled from the spec: what the source reaches as [store.get[key]]. At
    the key [state] it is the state getter, which returns the whole state as
    an object; at a declared field it is the named field getter, which reads
    the field; at an inherited key it is the inherited member; at any other
    key there is nothing. *)
Definition get (s : t) (key : string) : option (list Js.value → Js.value) :=
  if decide (key = "state")
  then Some (λ _args, Js.Obj (map_to_list (get_state s)))
  else if decide (key ∈ fields s)
  then Some (λ _args, Js.read (state s) key)
  else if decide (key ∈ inherited s)
  then Some (answered s key)
  else None.

(** Modelled from the spec: what the source reaches as [store.set[key]]. At
    the key [state] it is the whole-state replace, at the key [mergeState] the
    bulk merge (an object's members are merged into the state), at a declared
    field the named field setter, which writes the field; at an inherited key
    it is the inherited member; at any other key there is nothing. *)
Definition set (s : t) (key : string) : option (Js.value → t) :=
  if decide (key = "state")
  then Some (λ x, with_state (untyped s "state" x (state s)) s)
  else if decide (key = "mergeState")
  then Some (λ x,
         match x with
         | Js.Obj members => mergeState (list_to_map members) s
         | _ => with_state (untyped s "mergeState" x (state s)) s
         end)
  else if decide (key ∈ fields s)
  then Some (λ v, with_state (<[key := v]> (state s)) s)
  else if decide (key ∈ inherited s)
  then Some (λ x, with_state (untyped s key x (state s)) s)
  else None.

End Store.

(** ** Resolved plugins and the editor object *)

Module Plugin.

Record InjectRules := mkInject { nodeProps : Js.value }.

(** What the source reads off [editor.getPlugin(plugin)]. *)
Record t := mk {
  key : string;
  options : gmap string Js.value;
  optionsStore : option loc;
  inject : option InjectRules;
}.

End Plugin.

(** The argument the lookup functions receive: any object with a [key]. *)
Record PluginRef := mkRef { ref_key : string }.

Module Editor.

Record t := mk {
  id : Js.value;
  key : Js.value;
  isFallback : Js.value;
  api : Js.value;
  transforms : Js.value;
  plugins : gmap string Plugin.t;
  children : option (list Node);
  selection : option Range;
}.

Definition set_id (v : Js.value) (ed : t) : t :=
  mk v (key ed) (isFallback ed) (api ed) (transforms ed) (plugins ed)
     (children ed) (selection ed).

Definition set_key (v : Js.value) (ed : t) : t :=
  mk (id ed) v (isFallback ed) (api ed) (transforms ed) (plugins ed)
     (children ed) (selection ed).

Definition set_isFallback (v : Js.value) (ed : t) : t :=
  mk (id ed) (key ed) v (api ed) (transforms ed) (plugins ed)
     (children ed) (selection ed).

Definition set_children (c : option (list Node)) (ed : t) : t :=
  mk (id ed) (key ed) (isFallback ed) (api ed) (transforms ed) (plugins ed)
     c (selection ed).

Definition set_selection (s : option Range) (ed : t) : t :=
  mk (id ed) (key ed) (isFallback ed) (api ed) (transforms ed) (plugins ed)
     (children ed) s.

End Editor.

(** ** Construction options *)

(** The root-level plugin fields a caller may pass ([Pick<Partial<...>>] in
    [WithSlateOptions]); the source collects them as [...pluginConfig]. *)
Record RootFields := mkRootFields {
  rf_api : option Js.value;
  rf_decorate : option Js.value;
  rf_extendEditor : option Js.value;
  rf_inject : option Js.value;
  rf_normalizeInitialValue : option Js.value;
  rf_options : option Js.value;
  rf_override : option Js.value;
  rf_transforms : option Js.value;
}.

Definition no_root_fields : RootFields :=
  mkRootFields None None None None None None None None.

(** The object literal handed to [createSlatePlugin]. [P] is the type of
    plugin descriptors ([AnySlatePlugin]). *)
Record PluginConfig (P : Type) := mkConfig {
  cfg_key : string;
  cfg_priority : Z;
  cfg_fields : RootFields;
  cfg_plugins : list P;
}.
Arguments mkConfig {P}.
Arguments cfg_key {P}.
Arguments cfg_priority {P}.
Arguments cfg_fields {P}.
Arguments cfg_plugins {P}.

(** [autoSelect?: 'end' | 'start' | boolean] *)
Inductive AutoSelect := AutoEnd | AutoStart | AutoBool (b : bool).

(** [value?: V | string] *)
Inductive InitialValue := Markup (s : string) | Tree (v : list Node).

Inductive Edge := EdgeStart | EdgeEnd.

Module Options.

Record t (P : Type) := mk {
  autoSelect : option AutoSelect;
  id : Js.value;
  maxLength : option Z;
  plugins : list P;
  rootPlugin : option (P → P);
  selection : option Range;
  shouldNormalizeEditor : option bool;
  value : option InitialValue;
  pluginConfig : RootFields;
}.
Arguments mk {P}.
Arguments autoSelect {P}.
Arguments id {P}.
Arguments maxLength {P}.
Arguments plugins {P}.
Arguments rootPlugin {P}.
Arguments selection {P}.
Arguments shouldNormalizeEditor {P}.
Arguments value {P}.
Arguments pluginConfig {P}.

(** The default argument [= {}], with [plugins = []]. *)
Definition empty {P : Type} : t P :=
  mk None Js.Undefined None [] None None None None no_root_fields.

End Options.

(** Truthiness of the option values the source tests with [if (x)]. *)

Definition autoSelect_truthy (a : option AutoSelect) : bool :=
  match a with
  | Some AutoEnd | Some AutoStart | Some (AutoBool true) => true
  | Some (AutoBool false) | None => false
  end.

Definition value_truthy (v : option InitialValue) : bool :=
  match v with
  | Some (Markup s) => if decide (s = EmptyString) then false else true
  | Some (Tree _) => true
  | None => false
  end.

Definition flag_truthy (b : option bool) : bool := default false b.

(** Values whose [typeof] is neither ['object'] nor ['function']. *)
Inductive Primitive :=
| PUndefined
| PBool (b : bool)
| PNum (n : Z)
| PStr (s : string).

(** The second argument of [editor.setOptions], by the [typeof] the source
    tests: a plain mapping (['object']), a function of the current state
    (['function']), or a primitive. [null] and arrays, also of type
    ['object'], are not of the declared parameter type and are left out. *)
Inductive Patch :=
| PatchObject (patch : gmap string Js.value)
| PatchFunction (fn : gmap string Js.value → gmap string Js.value)
| PatchPrimitive (p : Primitive).

(** ** Imported collaborators *)

(** The functions [withSlate.ts] imports or reaches through [editor.api].
    Their code is outside this file; each is a total function of the editor
    object it is given. [Math_random n] is the [n]-th draw of [Math.random]. *)
Class Imports (P : Type) := {
  getCorePlugins : option Z → list P → list P;
  createSlatePlugin : PluginConfig P → P;
  resolvePlugins :
    Editor.t → gmap loc Store.t → list P → Editor.t * gmap loc Store.t;
  getSlatePlugin : Editor.t → PluginRef → Plugin.t;
  getPluginType : Editor.t → PluginRef → string;
  html_deserialize : Editor.t → string → list Node;
  create_value : Editor.t → list Node;
  getStartPoint : Editor.t → Path → Point;
  getEndPoint : Editor.t → Path → Point;
  select : Editor.t → Point → Editor.t;
  pipeNormalizeInitialValue : Editor.t → Editor.t;
  normalizeEditor : Editor.t → bool → Editor.t;
  Math_random : nat → Js.value;
}.

(** ** Worlds and the effect monad *)

Section Model.
Context {P : Type} `{Imports P}.

(** Calls the construction pipeline issues into the plugin and document
    layers, and the diagnostics reported through [editor.api.debug.error]. *)
Inductive Event :=
| CallResolvePlugins (roots : list P)
| CallDeserialize (element : string)
| CallCreateValue
| CallGetStartPoint (at_ : Path)
| CallGetEndPoint (at_ : Path)
| CallSelect (target : Point)
| CallPipeNormalizeInitialValue
| CallNormalizeEditor (force : bool)
| DebugError (message : string) (code : string).

Record World := mkWorld {
  editors : gmap loc Editor.t;
  stores : gmap loc Store.t;
  trace : list Event;
  draws : nat;
}.

Inductive Exn := TypeError (what : string).

Inductive Outcome (A : Type) :=
| Returns (a : A) (w : World)
| Throws (err : Exn).
Arguments Returns {A}.
Arguments Throws {A}.

Definition M (A : Type) : Type := World → Outcome A.

#[global] Instance M_ret : MRet M := λ A a w, Returns a w.

#[global] Instance M_bind : MBind M := λ A B f m w,
  match m w with
  | Returns a w' => f a w'
  | Throws err => Throws err
  end.

Definition throw {A : Type} (err : Exn) : M A := λ _, Throws err.

Definition with_editors (h : gmap loc Editor.t) (w : World) : World :=
  mkWorld h (stores w) (trace w) (draws w).

Definition with_stores (h : gmap loc Store.t) (w : World) : World :=
  mkWorld (editors w) h (trace w) (draws w).

Definition log (ev : Event) (w : World) : World :=
  mkWorld (editors w) (stores w) (trace w ++ [ev]) (draws w).

(** Reading through a reference; a reference to nothing is a [TypeError]. *)
Definition readEditor (e : loc) : M Editor.t := λ w,
  match editors w !! e with
  | Some ed => Returns ed w
  | None => Throws (TypeError "editor")
  end.

Definition writeEditor (e : loc) (ed : Editor.t) : M unit := λ w,
  Returns tt (with_editors (<[e := ed]> (editors w)) w).

Definition readStore (l : loc) : M Store.t := λ w,
  match stores w !! l with
  | Some s => Returns s w
  | None => Throws (TypeError "store")
  end.

Definition writeStore (l : loc) (s : Store.t) : M unit := λ w,
  Returns tt (with_stores (<[l := s]> (stores w)) w).

Definition readStores : M (gmap loc Store.t) := λ w, Returns (stores w) w.

Definition writeStores (h : gmap loc Store.t) : M unit := λ w,
  Returns tt (with_stores h w).

Definition emit (ev : Event) : M unit := λ w, Returns tt (log ev w).

(** [Math.random()] *)
Definition random : M Js.value := λ w,
  Returns (Math_random (draws w))
          (mkWorld (editors w) (stores w) (trace w) (S (draws w))).

(** Modelled from the spec: the diagnostic collaborator
    [editor.api.debug.error(message, code)], installed by the debug plugin
    (not in this file). The spec's contract is [reportError(message, code)],
    which reports and must not throw or abort the caller. *)
Definition debug_error (e : loc) (message code : string) : M unit :=
  emit (DebugError message code).

(** ** The lookup functions attached to the editor (lines 114-174)

    Each is a closure over [editor]; here the editor reference [e] is the
    first argument. *)

(** [editor.getApi = () => editor.api] *)
Definition getApi (e : loc) (_plugin : PluginRef) : M Js.value :=
  ed ← readEditor e; mret (Editor.api ed).

(** [editor.getTransforms = () => editor.transforms] *)
Definition getTransforms (e : loc) (_plugin : PluginRef) : M Js.value :=
  ed ← readEditor e; mret (Editor.transforms ed).

Definition getPlugin (e : loc) (plugin : PluginRef) : M Plugin.t :=
  ed ← readEditor e; mret (getSlatePlugin ed plugin).

Definition getType (e : loc) (plugin : PluginRef) : M string :=
  ed ← readEditor e; mret (getPluginType ed plugin).

(** [getPlugin(plugin).inject?.nodeProps ?? {}] *)
Definition getInjectProps (e : loc) (plugin : PluginRef) : M Js.value :=
  p ← getPlugin e plugin;
  mret (match Plugin.inject p with
        | Some rules => Js.coalesce (Plugin.nodeProps rules) (Js.Obj [])
        | None => Js.Obj []
        end).

Definition getOptionsStore (e : loc) (plugin : PluginRef) : M (option loc) :=
  p ← getPlugin e plugin; mret (Plugin.optionsStore p).

Definition getOptions (e : loc) (plugin : PluginRef)
    : M (gmap string Js.value) :=
  store ← getOptionsStore e plugin;
  match store with
  | None => p ← getPlugin e plugin; mret (Plugin.options p)
  | Some _ =>
      store' ← getOptionsStore e plugin;
      match store' with
      | Some l => s ← readStore l; mret (Store.get_state s)
      | None => throw (TypeError "optionsStore")
      end
  end.

Definition getOption (e : loc) (plugin : PluginRef) (key : string)
    (args : list Js.value) : M Js.value :=
  store ← getOptionsStore e plugin;
  match store with
  | None => p ← getPlugin e plugin; mret (Js.read (Plugin.options p) key)
  | Some l =>
      s ← readStore l;
      match Store.get s key with
      | Some getter => mret (getter args)
      | None =>
          debug_error e
            ("editor.getOption: " +:+ key +:+
             " option is not defined in plugin " +:+ ref_key plugin +:+ ".")
            "OPTION_UNDEFINED";;
          mret Js.Undefined
      end
  end.

Definition setOption (e : loc) (plugin : PluginRef) (key : string)
    (value : Js.value) : M unit :=
  store ← getOptionsStore e plugin;
  match store with
  | None => mret tt
  | Some l =>
      s ← readStore l;
      match Store.set s key with
      | Some setter => writeStore l (setter value)
      | None =>
          debug_error e
            ("editor.setOption: " +:+ key +:+
             " option is not defined in plugin " +:+ ref_key plugin +:+ ".")
            "OPTION_UNDEFINED"
      end
  end.

Definition setOptions (e : loc) (plugin : PluginRef) (options : Patch)
    : M unit :=
  store ← getOptionsStore e plugin;
  match store with
  | None => mret tt
  | Some l =>
      match options with
      | PatchObject patch =>
          s ← readStore l; writeStore l (Store.mergeState patch s)
      | PatchFunction fn =>
          s ← readStore l; writeStore l (Store.set_state fn s)
      | PatchPrimitive _ => mret tt
      end
  end.

(** ** Construction (lines 88-225)

    The [console.time] / [console.timeEnd] profiling calls are not
    modelled. The steps are named after the code blocks they embed. *)

(** [editor.field = ...]: an in-place update of the object at [e]. *)
Definition modifyEditor (e : loc) (f : Editor.t → Editor.t) : M unit :=
  ed ← readEditor e; writeEditor e (f ed).

(** Lines 110-112. [Math.random] is called only when the key is nullish. *)
Definition assignIdentity (e : loc) (o : Options.t P) : M unit :=
  ed ← readEditor e;
  writeEditor e (Editor.set_id (Js.coalesce (Options.id o) (Editor.id ed)) ed);;
  ed ← readEditor e;
  key ← (if Js.nullish (Editor.key ed) then random else mret (Editor.key ed));
  writeEditor e (Editor.set_key key ed);;
  modifyEditor e (Editor.set_isFallback (Js.Bool false)).

(** Lines 181-186: the object literal, [...pluginConfig] spread into it. *)
Definition rootConfig (o : Options.t P) : PluginConfig P :=
  let corePlugins := getCorePlugins (Options.maxLength o) (Options.plugins o) in
  mkConfig "root" 10000 (Options.pluginConfig o)
           (corePlugins ++ Options.plugins o).

(** Lines 176-191. *)
Definition rootPluginInstance (o : Options.t P) : P :=
  let rootPluginInstance := createSlatePlugin (rootConfig o) in
  match Options.rootPlugin o with
  | Some rootPlugin => rootPlugin rootPluginInstance
  | None => rootPluginInstance
  end.

(** Line 194: [resolvePlugins(editor, roots)] mutates the editor in place
    and may create option stores. *)
Definition callResolvePlugins (e : loc) (roots : list P) : M unit :=
  ed ← readEditor e;
  stores0 ← readStores;
  let resolved := resolvePlugins ed stores0 roots in
  emit (CallResolvePlugins roots);;
  writeEditor e resolved.1;;
  writeStores resolved.2.

(** Lines 197-204. *)
Definition seedContent (e : loc) (o : Options.t P) : M unit :=
  match Options.value o with
  | Some (Markup s) =>
      ed ← readEditor e;
      emit (CallDeserialize s);;
      writeEditor e (Editor.set_children (Some (html_deserialize ed s)) ed)
  | Some (Tree v) => modifyEditor e (Editor.set_children (Some v))
  | None => mret tt
  end;;
  ed ← readEditor e;
  match Editor.children ed with
  | Some [] =>
      emit CallCreateValue;;
      writeEditor e (Editor.set_children (Some (create_value ed)) ed)
  | _ => mret tt
  end.

Definition callPoint (e : loc) (edge : Edge) (at_ : Path) : M Point :=
  ed ← readEditor e;
  match edge with
  | EdgeStart => emit (CallGetStartPoint at_);; mret (getStartPoint ed at_)
  | EdgeEnd => emit (CallGetEndPoint at_);; mret (getEndPoint ed at_)
  end.

Definition callSelect (e : loc) (target : Point) : M unit :=
  emit (CallSelect target);;
  modifyEditor e (λ ed, select ed target).

(** Lines 205-212. *)
Definition seedSelection (e : loc) (o : Options.t P) : M unit :=
  match Options.selection o with
  | Some selection => modifyEditor e (Editor.set_selection (Some selection))
  | None =>
      if autoSelect_truthy (Options.autoSelect o) then
        let edge :=
          match Options.autoSelect o with
          | Some AutoStart => EdgeStart
          | _ => EdgeEnd
          end in
        target ← callPoint e edge [];
        callSelect e target
      else mret tt
  end.

(** Lines 213-215. *)
Definition normalizeInitialValue (e : loc) (o : Options.t P) : M unit :=
  if value_truthy (Options.value o) then
    emit CallPipeNormalizeInitialValue;;
    modifyEditor e pipeNormalizeInitialValue
  else mret tt.

(** Lines 216-220. *)
Definition normalizeFull (e : loc) (o : Options.t P) : M unit :=
  if flag_truthy (Options.shouldNormalizeEditor o) then
    emit (CallNormalizeEditor true);;
    modifyEditor e (λ ed, normalizeEditor ed true)
  else mret tt.

Definition withSlate (e : loc) (o : Options.t P) : M loc :=
  assignIdentity e o;;
  callResolvePlugins e [rootPluginInstance o];;
  seedContent e o;;
  seedSelection e o;;
  normalizeInitialValue e o;;
  normalizeFull e o;;
  mret e.



(** ** Vocabulary for the statements *)

(** The world [w] once the object at [e] has become [ed'] and the calls
    [evs] have been made. *)
Definition after (w : World) (e : loc) (ed' : Editor.t) (evs : list Event)
    : World :=
  mkWorld (<[e := ed']> (editors w)) (stores w) (trace w ++ evs) (draws w).

(** [stages e o w w2 w3 w4 w']: the call [withSlate e o] started in [w]
    reaches [w2] when the plugins are resolved, [w3] when content is seeded,
    [w4] when the selection is seeded, and returns [e] in [w']. *)
Definition stages (e : loc) (o : Options.t P) (w w2 w3 w4 w' : World)
    : Prop :=
  (assignIdentity e o;; callResolvePlugins e [rootPluginInstance o]) w
  = Returns tt w2 ∧
  seedContent e o w2 = Returns tt w3 ∧
  seedSelection e o w3 = Returns tt w4 ∧
  (normalizeInitialValue e o;; normalizeFull e o) w4 = Returns tt w' ∧
  withSlate e o w = Returns e w'.

Definition is_resolve_call (ev : Event) : bool :=
  match ev with CallResolvePlugins _ => true | _ => false end.

Definition is_create_value_call (ev : Event) : bool :=
  match ev with CallCreateValue => true | _ => false end.

Definition is_normalize_initial_call (ev : Event) : bool :=
  match ev with CallPipeNormalizeInitialValue => true | _ => false end.

Definition is_normalize_editor_call (ev : Event) : bool :=
  match ev with CallNormalizeEditor _ => true | _ => false end.

Definition is_diagnostic (ev : Event) : bool :=
  match ev with DebugError _ _ => true | _ => false end.

(** The position of a call in the source text of [withSlate]: line 194,
    198, 203, 210, 211, 214, 218. The two point computations share line 210. *)
Definition stage_of (ev : Event) : nat :=
  match ev with
  | CallResolvePlugins _ => 0
  | CallDeserialize _ => 1
  | CallCreateValue => 2
  | CallGetStartPoint _ | CallGetEndPoint _ => 3
  | CallSelect _ => 4
  | CallPipeNormalizeInitialValue => 5
  | CallNormalizeEditor _ => 6
  | DebugError _ _ => 7
  end.

(** The identity fields of an editor: [id], [key] and [isFallback]. *)
Definition identity_of (ed : Editor.t) : Js.value * Js.value * Js.value :=
  (Editor.id ed, Editor.key ed, Editor.isFallback ed).

(** What a call returned, if it returned. *)
Definition returned {A : Type} (r : Outcome A) : option A :=
  match r with
  | Returns a _ => Some a
  | Throws _ => None
  end.

End Model.

Arguments Returns {P A}.
Arguments Throws {P A}.

(** ** A concrete plugin type and concrete collaborators

    Used to run the model on explicit inputs. *)

Module Sample.

(** A descriptor that is just the configuration it was created from. *)
Inductive Descriptor := Desc (config : PluginConfig Descriptor).

Definition config_of (d : Descriptor) : PluginConfig Descriptor :=
  match d with Desc c => c end.

Definition paragraph (s : string) : Node := Element "p" [Text s].

Definition lookup_plugin (ed : Editor.t) (plugin : PluginRef) : Plugin.t :=
  default (Plugin.mk (ref_key plugin) ∅ None None)
          (Editor.plugins ed !! ref_key plugin).

#[global] Instance imports : Imports Descriptor := {|
  getCorePlugins := λ _ _, [Desc (mkConfig "debug" 100 no_root_fields [])];
  createSlatePlugin := Desc;
  resolvePlugins := λ ed stores _, (ed, stores);
  getSlatePlugin := lookup_plugin;
  getPluginType := λ _ plugin, ref_key plugin;
  html_deserialize := λ _ s, if decide (s = EmptyString) then [] else [paragraph s];
  create_value := λ _, [paragraph EmptyString];
  getStartPoint := λ _ at_, mkPoint (at_ ++ [0; 0]) 0;
  getEndPoint := λ ed at_,
    mkPoint (at_ ++ [pred (length (default [] (Editor.children ed))); 0]) 0;
  select := λ ed p, Editor.set_selection (Some (collapsed p)) ed;
  pipeNormalizeInitialValue := λ ed, ed;
  normalizeEditor := λ ed _, ed;
  Math_random := λ n, Js.Num (Z.of_nat n);
|}.

(** A plugin with a reactive store (at address 7) declaring the fields
    [mode] and [limit], and a plugin with a plain options bag. *)
Definition reactive : Plugin.t :=
  Plugin.mk "list" {[ "mode" := Js.Str "flat" ]} (Some 7) None.

Definition plain : Plugin.t :=
  Plugin.mk "link" {[ "target" := Js.Str "_blank" ]} None None.

Definition list_store : Store.t :=
  Store.mk {[ "mode"; "limit" ]}
           {[ "mode" := Js.Str "flat"; "limit" := Js.Num 3 ]}
           {[ "constructor"; "toString"; "valueOf"; "hasOwnProperty" ]}
           (λ _ _, Js.Str "[object Undefined]")
           (λ _ _ st, st).

Definition bare : Editor.t :=
  Editor.mk (Js.Num 1) Js.Undefined Js.Undefined Js.Undefined Js.Undefined
            ∅ None None.

Definition resolved : Editor.t :=
  Editor.mk (Js.Num 1) (Js.Num 42) (Js.Bool false)
            (Js.Obj [("debug", Js.Obj [("error", Js.Fun 0)])])
            (Js.Obj [("insert", Js.Fun 1)])
            {[ "list" := reactive; "link" := plain ]}
            (Some [paragraph "hello"]) None.

Definition world (ed : Editor.t) : World (P := Descriptor) :=
  mkWorld {[ 0 := ed ]} {[ 7 := list_store ]} [] 0.

Definition list_plugin : Descriptor :=
  Desc (mkConfig "list" 100 no_root_fields []).

(** [withSlate(e, { id: 'main', autoSelect: 'start', maxLength: 100,
    plugins: [list], value: [<p>hello</p>] })] *)
Definition start_options : Options.t Descriptor :=
  Options.mk (Some AutoStart) (Js.Str "main") (Some 100%Z) [list_plugin]
             None None None (Some (Tree [paragraph "hello"])) no_root_fields.

(** [withSlate(e, { value: [] })] *)
Definition empty_tree_options : Options.t Descriptor :=
  Options.mk None Js.Undefined None [] None None None (Some (Tree []))
             no_root_fields.

(** [withSlate(e, { value: '' })] *)
Definition empty_markup_options : Options.t Descriptor :=
  Options.mk None Js.Undefined None [] None None None (Some (Markup EmptyString))
             no_root_fields.

(** A [rootPlugin] function that returns the root with priority 1. *)
Definition reprioritize (d : Descriptor) : Descriptor :=
  Desc (mkConfig (cfg_key (config_of d)) 1 (cfg_fields (config_of d))
                 (cfg_plugins (config_of d))).

(** [withSlate(e, { plugins: [list], rootPlugin: reprioritize })] *)
Definition reprioritized_options : Options.t Descriptor :=
  Options.mk None Js.Undefined None [list_plugin] (Some reprioritize)
             None None None no_root_fields.

(** An editor as a factory leaves it: no key yet, children the empty list. *)
Definition blank : Editor.t :=
  Editor.mk (Js.Num 2) Js.Undefined Js.Undefined Js.Undefined Js.Undefined
            ∅ (Some []) None.

(** [withSlate(e, { value: '<p>hello</p>', autoSelect: true,
    shouldNormalizeEditor: true })] *)
Definition markup_options : Options.t Descriptor :=
  Options.mk (Some (AutoBool true)) Js.Undefined None [] None None (Some true)
             (Some (Markup "<p>hello</p>")) no_root_fields.

End Sample.

(** ** Properties *)

Section Properties.
Context {P : Type} `{Imports P}.

Implicit Types (w : @World P) (e l : loc) (ed : Editor.t) (s : Store.t).
Implicit Types (plugin : PluginRef) (field : string) (v : Js.value).

(** *** Running the primitives *)

Lemma readEditor_run w e ed :
  editors w !! e = Some ed → readEditor e w = Returns ed w.
Proof. intros He. unfold readEditor. by rewrite He. Qed.

Lemma readStore_run w l s :
  stores w !! l = Some s → readStore l w = Returns s w.
Proof. intros Hl. unfold readStore. by rewrite Hl. Qed.

Lemma getPlugin_run w e ed plugin :
  editors w !! e = Some ed →
  getPlugin e plugin w = Returns (getSlatePlugin ed plugin) w.
Proof.
  intros He. unfold getPlugin, mbind, M_bind.
  by rewrite (readEditor_run _ _ _ He).
Qed.

Lemma getOptionsStore_run w e ed plugin :
  editors w !! e = Some ed →
  getOptionsStore e plugin w
  = Returns (Plugin.optionsStore (getSlatePlugin ed plugin)) w.
Proof.
  intros He. unfold getOptionsStore, mbind, M_bind.
  by rewrite (getPlugin_run _ _ _ _ He).
Qed.

Lemma bind_run {A B} (m : M A) (k : A → M B) w a w' :
  m w = Returns a w' → (m ≫= k) w = k a w'.
Proof. intros Hm. unfold mbind, M_bind. by rewrite Hm. Qed.

Lemma store_get_declared s field :
  field ∈ Store.fields s →
  field ≠ "state" →
  Store.get s field = Some (λ _, Js.read (Store.state s) field).
Proof.
  intros Hin Hne. unfold Store.get. by rewrite decide_False, decide_True.
Qed.

Lemma store_get_undeclared s field :
  field ∉ Store.fields s →
  field ∉ Store.inherited s →
  field ≠ "state" →
  Store.get s field = None.
Proof.
  intros Hin Hinh Hne. unfold Store.get. by rewrite !decide_False.
Qed.

Lemma store_set_declared s field :
  field ∈ Store.fields s →
  field ≠ "state" →
  field ≠ "mergeState" →
  Store.set s field
  = Some (λ v, Store.with_state (<[field := v]> (Store.state s)) s).
Proof.
  intros Hin Hs Hm. unfold Store.set.
  by rewrite decide_False, decide_False, decide_True.
Qed.

Lemma store_set_undeclared s field :
  field ∉ Store.fields s →
  field ∉ Store.inherited s →
  field ≠ "state" →
  field ≠ "mergeState" →
  Store.set s field = None.
Proof.
  intros Hin Hinh Hs Hm. unfold Store.set. by rewrite !decide_False.
Qed.

(** The three option operations, run on a plugin whose store is at [l]. *)

Lemma getOption_store_run w e ed plugin l s field args :
  editors w !! e = Some ed →
  Plugin.optionsStore (getSlatePlugin ed plugin) = Some l →
  stores w !! l = Some s →
  getOption e plugin field args w
  = match Store.get s field with
    | Some getter => Returns (getter args) w
    | None =>
        Returns Js.Undefined
          (log (DebugError
                  ("editor.getOption: " +:+ field +:+
                   " option is not defined in plugin " +:+
                   ref_key plugin +:+ ".")
                  "OPTION_UNDEFINED") w)
    end.
Proof.
  intros He Hl Hs. unfold getOption.
  rewrite (bind_run _ _ _ _ _ (getOptionsStore_run _ _ _ plugin He)), Hl.
  rewrite (bind_run _ _ _ _ _ (readStore_run _ _ _ Hs)).
  by destruct (Store.get s field).
Qed.

Lemma setOption_store_run w e ed plugin l s field v :
  editors w !! e = Some ed →
  Plugin.optionsStore (getSlatePlugin ed plugin) = Some l →
  stores w !! l = Some s →
  setOption e plugin field v w
  = match Store.set s field with
    | Some setter =>
        Returns tt (with_stores (<[l := setter v]> (stores w)) w)
    | None =>
        Returns tt
          (log (DebugError
                  ("editor.setOption: " +:+ field +:+
                   " option is not defined in plugin " +:+
                   ref_key plugin +:+ ".")
                  "OPTION_UNDEFINED") w)
    end.
Proof.
  intros He Hl Hs. unfold setOption.
  rewrite (bind_run _ _ _ _ _ (getOptionsStore_run _ _ _ plugin He)), Hl.
  rewrite (bind_run _ _ _ _ _ (readStore_run _ _ _ Hs)).
  by destruct (Store.set s field).
Qed.

Lemma getOptions_store_run w e ed plugin l s :
  editors w !! e = Some ed →
  Plugin.optionsStore (getSlatePlugin ed plugin) = Some l →
  stores w !! l = Some s →
  getOptions e plugin w = Returns (Store.state s) w.
Proof.
  intros He Hl Hs. unfold getOptions.
  rewrite (bind_run _ _ _ _ _ (getOptionsStore_run _ _ _ plugin He)), Hl.
  rewrite (bind_run _ _ _ _ _ (getOptionsStore_run _ _ _ plugin He)), Hl.
  by rewrite (bind_run _ _ _ _ _ (readStore_run _ _ _ Hs)).
Qed.

(** *** Option indirection *)

(** C1, amended. On a plugin with a reactive store, for a field declared
    on that store (an option field, not one of the store's own operation
    names [state] and [mergeState]), [setOption] followed by [getOption] on
    the same field returns the written value and reports nothing. On a plugin
    with a plain options bag, [setOption] changes nothing and [getOption],
    before or after any [setOption], returns the bag's value for the field. *)
Theorem setOption_getOption_declared w e ed plugin field v args :
  editors w !! e = Some ed →
  (∀ l s,
      Plugin.optionsStore (getSlatePlugin ed plugin) = Some l →
      stores w !! l = Some s →
      field ∈ Store.fields s →
      field ≠ "state" →
      field ≠ "mergeState" →
      ∃ w', setOption e plugin field v w = Returns tt w' ∧
            getOption e plugin field args w' = Returns v w' ∧
            trace w' = trace w) ∧
  (Plugin.optionsStore (getSlatePlugin ed plugin) = None →
   setOption e plugin field v w = Returns tt w ∧
   getOption e plugin field args w
   = Returns (Js.read (Plugin.options (getSlatePlugin ed plugin)) field) w ∧
   (setOption e plugin field v;; getOption e plugin field args) w
   = Returns (Js.read (Plugin.options (getSlatePlugin ed plugin)) field) w).
Proof.
  intros He. split.
  - intros l s Hl Hs Hin Hstate Hmerge.
    eexists. split; [|split].
    + rewrite (setOption_store_run _ _ _ _ _ _ _ _ He Hl Hs).
      by rewrite (store_set_declared _ _ Hin Hstate Hmerge).
    + erewrite getOption_store_run; [| exact He | exact Hl |].
      2:{ cbn. apply lookup_insert_eq. }
      rewrite store_get_declared by done.
      cbn. unfold Js.read. by rewrite lookup_insert_eq.
    + done.
  - intros Hl.
    assert (Hset : setOption e plugin field v w = Returns tt w).
    { unfold setOption.
      by rewrite (bind_run _ _ _ _ _ (getOptionsStore_run _ _ _ plugin He)), Hl. }
    assert (Hget : getOption e plugin field args w
                   = Returns (Js.read (Plugin.options (getSlatePlugin ed plugin))
                                      field) w).
    { unfold getOption.
      rewrite (bind_run _ _ _ _ _ (getOptionsStore_run _ _ _ plugin He)), Hl.
      by rewrite (bind_run _ _ _ _ _ (getPlugin_run _ _ _ plugin He)). }
    split; [done|]. split; [done|].
    by rewrite (bind_run _ _ _ _ _ Hset).
Qed.

(** C2, amended. On a plugin with a reactive store and a key that is
    neither a field declared on it, nor the name of one of the store's own
    operations ([state] for reading; [state] and [mergeState] for writing),
    nor a key the store's accessor objects inherit, [getOption] reports one
    [OPTION_UNDEFINED] diagnostic and returns [undefined]; [setOption] reports
    one [OPTION_UNDEFINED] diagnostic and leaves every store (and the editor)
    as it was. Both calls return. *)
Theorem undeclared_option_reports_and_returns w e ed plugin l s field v args :
  editors w !! e = Some ed →
  Plugin.optionsStore (getSlatePlugin ed plugin) = Some l →
  stores w !! l = Some s →
  field ∉ Store.fields s →
  field ∉ Store.inherited s →
  field ≠ "state" →
  (∃ w' message,
      getOption e plugin field args w = Returns Js.Undefined w' ∧
      trace w' = trace w ++ [DebugError message "OPTION_UNDEFINED"] ∧
      stores w' = stores w ∧ editors w' = editors w) ∧
  (field ≠ "mergeState" →
   ∃ w' message,
      setOption e plugin field v w = Returns tt w' ∧
      trace w' = trace w ++ [DebugError message "OPTION_UNDEFINED"] ∧
      stores w' = stores w ∧ editors w' = editors w).
Proof.
  intros He Hl Hs Hin Hinh Hstate. split.
  - rewrite (getOption_store_run _ _ _ _ _ _ _ _ He Hl Hs).
    rewrite (store_get_undeclared _ _ Hin Hinh Hstate). by eexists _, _.
  - intros Hmerge.
    rewrite (setOption_store_run _ _ _ _ _ _ _ _ He Hl Hs).
    rewrite (store_set_undeclared _ _ Hin Hinh Hstate Hmerge).
    by eexists _, _.
Qed.

(** C7. On a plugin with a reactive store, [setOptions] with a plain
    mapping merges it into the store's state (the patch's fields win), and
    with a function replaces the state by the function applied to the
    current state; [getOptions] then reads that state. On a plugin with a
    plain options bag, [setOptions] changes nothing. *)
Theorem setOptions_merges_or_replaces w e ed plugin :
  editors w !! e = Some ed →
  (∀ l s,
      Plugin.optionsStore (getSlatePlugin ed plugin) = Some l →
      stores w !! l = Some s →
      (∀ patch, ∃ w',
          setOptions e plugin (PatchObject patch) w = Returns tt w' ∧
          stores w' = <[l := Store.with_state (patch ∪ Store.state s) s]>
                        (stores w) ∧
          editors w' = editors w ∧ trace w' = trace w ∧
          getOptions e plugin w' = Returns (patch ∪ Store.state s) w') ∧
      (∀ fn, ∃ w',
          setOptions e plugin (PatchFunction fn) w = Returns tt w' ∧
          stores w' = <[l := Store.with_state (fn (Store.state s)) s]>
                        (stores w) ∧
          editors w' = editors w ∧ trace w' = trace w ∧
          getOptions e plugin w' = Returns (fn (Store.state s)) w')) ∧
  (Plugin.optionsStore (getSlatePlugin ed plugin) = None →
   ∀ patch, setOptions e plugin patch w = Returns tt w).
Proof.
  intros He. split.
  - intros l s Hl Hs.
    split; intros x; eexists; (split; [|split; [|split; [|split]]]).
    + unfold setOptions.
      rewrite (bind_run _ _ _ _ _ (getOptionsStore_run _ _ _ plugin He)), Hl.
      by rewrite (bind_run _ _ _ _ _ (readStore_run _ _ _ Hs)).
    + done.
    + done.
    + done.
    + erewrite getOptions_store_run;
        [| exact He | exact Hl | cbn; apply lookup_insert_eq]; done.
    + unfold setOptions.
      rewrite (bind_run _ _ _ _ _ (getOptionsStore_run _ _ _ plugin He)), Hl.
      by rewrite (bind_run _ _ _ _ _ (readStore_run _ _ _ Hs)).
    + done.
    + done.
    + done.
    + erewrite getOptions_store_run;
        [| exact He | exact Hl | cbn; apply lookup_insert_eq]; done.
  - intros Hl patch. unfold setOptions.
    by rewrite (bind_run _ _ _ _ _ (getOptionsStore_run _ _ _ plugin He)), Hl.
Qed.

(** C9. [getApi] and [getTransforms] return the editor's whole [api] and
    [transforms] namespaces whatever plugin they are given. *)
Theorem getApi_getTransforms_ignore_plugin w e ed :
  editors w !! e = Some ed →
  ∀ plugin,
    getApi e plugin w = Returns (Editor.api ed) w ∧
    getTransforms e plugin w = Returns (Editor.transforms ed) w.
Proof.
  intros He plugin. unfold getApi, getTransforms.
  by rewrite !(bind_run _ _ _ _ _ (readEditor_run _ _ _ He)).
Qed.

Implicit Types (o : Options.t P).

(** *** Running the construction steps *)

Ltac run :=
  repeat (progress (
    cbn -[insert lookup];
    unfold modifyEditor, readEditor, writeEditor, random, emit, readStores,
           writeStores, callPoint, callSelect, mbind, M_bind, mret, M_ret;
    cbn -[insert lookup];
    rewrite ?lookup_insert_eq, ?insert_insert_eq;
    try match goal with
        | Hed : editors ?w !! ?e = Some _ |- context [editors ?w !! ?e] =>
            rewrite Hed
        end)).

Ltac settle :=
  unfold after, with_editors, with_stores, log; cbn -[insert lookup];
  rewrite <- ?app_assoc, ?app_nil_r; cbn -[insert lookup]; try done.

Lemma after_lookup w e ed' evs : editors (after w e ed' evs) !! e = Some ed'.
Proof. cbn. apply lookup_insert_eq. Qed.

Lemma after_id w e ed : editors w !! e = Some ed → after w e ed [] = w.
Proof.
  intros He. destruct w as [h st tr n]. unfold after. cbn in *.
  by rewrite insert_id, app_nil_r.
Qed.

Lemma after_after w e ed1 evs1 ed2 evs2 :
  after (after w e ed1 evs1) e ed2 evs2 = after w e ed2 (evs1 ++ evs2).
Proof. unfold after. cbn. by rewrite insert_insert_eq, app_assoc. Qed.

Lemma assignIdentity_run w e ed o :
  editors w !! e = Some ed →
  assignIdentity e o w
  = Returns tt
      (mkWorld
         (<[e := Editor.mk (Js.coalesce (Options.id o) (Editor.id ed))
                   (if Js.nullish (Editor.key ed)
                    then Math_random (draws w) else Editor.key ed)
                   (Js.Bool false) (Editor.api ed) (Editor.transforms ed)
                   (Editor.plugins ed) (Editor.children ed)
                   (Editor.selection ed)]> (editors w))
         (stores w) (trace w)
         (if Js.nullish (Editor.key ed) then S (draws w) else draws w)).
Proof.
  intros He. unfold assignIdentity. run. 
  destruct (Js.nullish (Editor.key ed)); run; done.
Qed.

Lemma callResolvePlugins_run w e ed roots :
  editors w !! e = Some ed →
  callResolvePlugins e roots w
  = Returns tt
      (mkWorld (<[e := (resolvePlugins ed (stores w) roots).1]> (editors w))
               (resolvePlugins ed (stores w) roots).2
               (trace w ++ [CallResolvePlugins roots]) (draws w)).
Proof. intros He. unfold callResolvePlugins. run; settle. Qed.

Lemma seedContent_run w e ed o :
  editors w !! e = Some ed →
  ∃ a evsa ed' evs,
    seedContent e o w = Returns tt (after w e ed' evs) ∧
    (a, evsa)
    = match Options.value o with
      | Some (Markup s) =>
          (Editor.set_children (Some (html_deserialize ed s)) ed,
           [CallDeserialize s])
      | Some (Tree v) => (Editor.set_children (Some v) ed, [])
      | None => (ed, [])
      end ∧
    (ed', evs)
    = match Editor.children a with
      | Some [] =>
          (Editor.set_children (Some (create_value a)) a,
           evsa ++ [CallCreateValue])
      | _ => (a, evsa)
      end.
Proof.
  intros He. unfold seedContent.
  destruct (Options.value o) as [[s|v]|].
  - destruct (html_deserialize ed s) as [|n ns] eqn:Hd;
      eexists _, _, _, _; (split; [|split; [done|]]);
      [| cbn; done | | cbn; done];
      run; rewrite ?Hd; run; settle.
  - destruct v as [|n ns];
      eexists _, _, _, _; (split; [|split; [done|]]);
      [| cbn; done | | cbn; done]; run; settle.
  - destruct (Editor.children ed) as [[|n ns]|] eqn:Hc;
      eexists _, _, _, _; (split; [|split; [done|]]);
      [| rewrite Hc; done | | rewrite Hc; done | | rewrite Hc; done];
      run; rewrite ?Hc; run; rewrite ?(after_id _ _ _ He); settle.
Qed.

Lemma seedSelection_run w e ed o :
  editors w !! e = Some ed →
  ∃ ed' evs,
    seedSelection e o w = Returns tt (after w e ed' evs) ∧
    (ed', evs)
    = match Options.selection o with
      | Some selection => (Editor.set_selection (Some selection) ed, [])
      | None =>
          match Options.autoSelect o with
          | Some AutoStart =>
              (select ed (getStartPoint ed []),
               [CallGetStartPoint []; CallSelect (getStartPoint ed [])])
          | Some AutoEnd | Some (AutoBool true) =>
              (select ed (getEndPoint ed []),
               [CallGetEndPoint []; CallSelect (getEndPoint ed [])])
          | Some (AutoBool false) | None => (ed, [])
          end
      end.
Proof.
  intros He. unfold seedSelection.
  destruct (Options.selection o) as [sel|].
  - eexists _, _. split; [|done]. run. settle.
  - destruct (Options.autoSelect o) as [[| |[|]]|];
      eexists _, _; (split; [|done]); run;
      rewrite ?(after_id _ _ _ He); settle.
Qed.

Lemma normalizeInitialValue_run w e ed o :
  editors w !! e = Some ed →
  ∃ ed' evs,
    normalizeInitialValue e o w = Returns tt (after w e ed' evs) ∧
    (ed', evs)
    = (if value_truthy (Options.value o)
       then (pipeNormalizeInitialValue ed, [CallPipeNormalizeInitialValue])
       else (ed, [])).
Proof.
  intros He. unfold normalizeInitialValue.
  destruct (value_truthy (Options.value o));
    eexists _, _; (split; [|done]); run;
    rewrite ?(after_id _ _ _ He); settle.
Qed.

Lemma normalizeFull_run w e ed o :
  editors w !! e = Some ed →
  ∃ ed' evs,
    normalizeFull e o w = Returns tt (after w e ed' evs) ∧
    (ed', evs)
    = (if flag_truthy (Options.shouldNormalizeEditor o)
       then (normalizeEditor ed true, [CallNormalizeEditor true])
       else (ed, [])).
Proof.
  intros He. unfold normalizeFull.
  destruct (flag_truthy (Options.shouldNormalizeEditor o));
    eexists _, _; (split; [|done]); run;
    rewrite ?(after_id _ _ _ He); settle.
Qed.

Lemma stages_intro e o w w1 w2 w3 w4 w5 w' :
  assignIdentity e o w = Returns tt w1 →
  callResolvePlugins e [rootPluginInstance o] w1 = Returns tt w2 →
  seedContent e o w2 = Returns tt w3 →
  seedSelection e o w3 = Returns tt w4 →
  normalizeInitialValue e o w4 = Returns tt w5 →
  normalizeFull e o w5 = Returns tt w' →
  stages e o w w2 w3 w4 w'.
Proof.
  intros H1 H2 H3 H4 H5 H6. unfold stages, withSlate.
  repeat split; try done.
  - by rewrite (bind_run _ _ _ _ _ H1).
  - by rewrite (bind_run _ _ _ _ _ H5).
  - rewrite (bind_run _ _ _ _ _ H1), (bind_run _ _ _ _ _ H2),
      (bind_run _ _ _ _ _ H3), (bind_run _ _ _ _ _ H4),
      (bind_run _ _ _ _ _ H5). by rewrite (bind_run _ _ _ _ _ H6).
Qed.

(** The whole call, stage by stage. [ed2], [ed3], [ed4] and [ed'] are the
    editor object when the plugins are resolved, when content is seeded,
    when the selection is seeded and on return; [evs3], [evs4], [evs5] and
    [evs'] the calls made in between. *)
Lemma withSlate_run w e ed o :
  editors w !! e = Some ed →
  ∃ ed1 ed2 st2 n2 a evsa ed3 evs3 ed4 evs4 ed5 evs5 ed' evs',
    stages e o w
      (mkWorld (<[e := ed2]> (editors w)) st2
               (trace w ++ [CallResolvePlugins [rootPluginInstance o]]) n2)
      (mkWorld (<[e := ed3]> (editors w)) st2
               (trace w ++ [CallResolvePlugins [rootPluginInstance o]]
                        ++ evs3) n2)
      (mkWorld (<[e := ed4]> (editors w)) st2
               (trace w ++ [CallResolvePlugins [rootPluginInstance o]]
                        ++ evs3 ++ evs4) n2)
      (mkWorld (<[e := ed']> (editors w)) st2
               (trace w ++ [CallResolvePlugins [rootPluginInstance o]]
                        ++ evs3 ++ evs4 ++ evs5 ++ evs') n2) ∧
    ed1 = Editor.mk (Js.coalesce (Options.id o) (Editor.id ed))
                    (if Js.nullish (Editor.key ed)
                     then Math_random (draws w) else Editor.key ed)
                    (Js.Bool false) (Editor.api ed) (Editor.transforms ed)
                    (Editor.plugins ed) (Editor.children ed)
                    (Editor.selection ed) ∧
    ed2 = (resolvePlugins ed1 (stores w) [rootPluginInstance o]).1 ∧
    (a, evsa)
    = match Options.value o with
      | Some (Markup s) =>
          (Editor.set_children (Some (html_deserialize ed2 s)) ed2,
           [CallDeserialize s])
      | Some (Tree v) => (Editor.set_children (Some v) ed2, [])
      | None => (ed2, [])
      end ∧
    (ed3, evs3)
    = match Editor.children a with
      | Some [] =>
          (Editor.set_children (Some (create_value a)) a,
           evsa ++ [CallCreateValue])
      | _ => (a, evsa)
      end ∧
    (ed4, evs4)
    = match Options.selection o with
      | Some selection => (Editor.set_selection (Some selection) ed3, [])
      | None =>
          match Options.autoSelect o with
          | Some AutoStart =>
              (select ed3 (getStartPoint ed3 []),
               [CallGetStartPoint []; CallSelect (getStartPoint ed3 [])])
          | Some AutoEnd | Some (AutoBool true) =>
              (select ed3 (getEndPoint ed3 []),
               [CallGetEndPoint []; CallSelect (getEndPoint ed3 [])])
          | Some (AutoBool false) | None => (ed3, [])
          end
      end ∧
    (ed5, evs5)
    = (if value_truthy (Options.value o)
       then (pipeNormalizeInitialValue ed4, [CallPipeNormalizeInitialValue])
       else (ed4, [])) ∧
    (ed', evs')
    = (if flag_truthy (Options.shouldNormalizeEditor o)
       then (normalizeEditor ed5 true, [CallNormalizeEditor true])
       else (ed5, [])).
Proof.
  intros He.
  pose proof (assignIdentity_run w e ed o He) as H1.
  set (ed1 := Editor.mk _ _ _ _ _ _ _ _) in H1.
  set (w1 := mkWorld _ _ _ _) in H1.
  assert (He1 : editors w1 !! e = Some ed1) by apply lookup_insert_eq.
  pose proof (callResolvePlugins_run w1 e ed1 [rootPluginInstance o] He1) as H2.
  set (w2 := mkWorld _ _ _ _) in H2.
  set (ed2 := (resolvePlugins ed1 (stores w) [rootPluginInstance o]).1).
  assert (He2 : editors w2 !! e = Some ed2) by apply lookup_insert_eq.
  destruct (seedContent_run w2 e ed2 o He2)
    as (a & evsa & ed3 & evs3 & H3 & Ha & H3').
  set (w3 := after w2 e ed3 evs3) in *.
  destruct (seedSelection_run w3 e ed3 o (after_lookup w2 e ed3 evs3))
    as (ed4 & evs4 & H4 & H4').
  set (w4 := after w3 e ed4 evs4) in *.
  destruct (normalizeInitialValue_run w4 e ed4 o (after_lookup w3 e ed4 evs4))
    as (ed5 & evs5 & H5 & H5').
  set (w5 := after w4 e ed5 evs5) in *.
  destruct (normalizeFull_run w5 e ed5 o (after_lookup w4 e ed5 evs5))
    as (ed6 & evs6 & H6 & H6').
  exists ed1, ed2, (resolvePlugins ed1 (stores w) [rootPluginInstance o]).2,
    (draws w1), a, evsa, ed3, evs3, ed4, evs4, ed5, evs5, ed6, evs6.
  split; [|done].
  pose proof (stages_intro _ _ _ _ _ _ _ _ _ H1 H2 H3 H4 H5 H6) as Hst.
  revert Hst. unfold w5, w4, w3, after, w2, w1. cbn -[insert lookup].
  rewrite !insert_insert_eq, <- !app_assoc. done.
Qed.
(** *** Construction *)

(** C8. The call returns the reference it was given, and the object at that
    reference is the one that was constructed on. The construction starts with
    the identity step: the id becomes the [id] option unless that is nullish
    (then it is kept), the key is kept unless it is nullish (only then
    [Math.random] is drawn, and its value assigned), and [isFallback] becomes
    [false]. Plugin resolution is called on the editor this step left and the
    rest of the construction runs on its result; the returned editor still has
    that identity if the collaborators called on it leave the three fields
    alone. *)
Theorem withSlate_same_editor_and_identity w e ed o :
  editors w !! e = Some ed →
  ∃ w1 ed1 w2 w3 w4 w' ed',
    assignIdentity e o w = Returns tt w1 ∧
    editors w1 !! e = Some ed1 ∧
    Editor.id ed1
    = (if Js.nullish (Options.id o) then Editor.id ed else Options.id o) ∧
    Editor.key ed1
    = (if Js.nullish (Editor.key ed)
       then Math_random (draws w) else Editor.key ed) ∧
    draws w1
    = (if Js.nullish (Editor.key ed) then S (draws w) else draws w) ∧
    Editor.isFallback ed1 = Js.Bool false ∧
    callResolvePlugins e [rootPluginInstance o] w1 = Returns tt w2 ∧
    editors w2 !! e
    = Some (resolvePlugins ed1 (stores w) [rootPluginInstance o]).1 ∧
    stages e o w w2 w3 w4 w' ∧
    withSlate e o w = Returns e w' ∧
    editors w' !! e = Some ed' ∧
    ((∀ x st roots,
         identity_of (resolvePlugins x st roots).1 = identity_of x) →
     (∀ x p, identity_of (select x p) = identity_of x) →
     (∀ x, identity_of (pipeNormalizeInitialValue x) = identity_of x) →
     (∀ x b, identity_of (normalizeEditor x b) = identity_of x) →
     identity_of ed' = identity_of ed1).
Proof.
  intros He.
  destruct (withSlate_run w e ed o He)
    as (ed1 & ed2 & st2 & n2 & a & evsa & ed3 & evs3 & ed4 & evs4 & ed5
        & evs5 & ed' & evs' & Hst & H1 & H2 & Ha & H3 & H4 & H5 & H6).
  pose proof (assignIdentity_run w e ed o He) as Hid.
  rewrite <- H1 in Hid.
  set (w1 := mkWorld _ _ _ _) in Hid.
  assert (He1 : editors w1 !! e = Some ed1) by apply lookup_insert_eq.
  pose proof (callResolvePlugins_run w1 e ed1 [rootPluginInstance o] He1) as Hr.
  pose proof Hst as (Hfirst & _ & _ & _ & Hw).
  rewrite (bind_run _ _ _ _ _ Hid), Hr in Hfirst.
  inversion Hfirst as [[Heds Hstores Hdraws]].
  eexists w1, ed1, _, _, _, _, ed'. split; [exact Hid|].
  split; [exact He1|]. rewrite H1 at 1 2 3.
  split; [done|]. split; [done|]. split; [done|]. split; [done|].
  split; [rewrite Hr; exact Hfirst|].
  split; [cbn -[insert lookup]; by rewrite lookup_insert_eq, H2|].
  split; [exact Hst|]. split; [exact Hw|].
  split; [apply lookup_insert_eq|].
  intros Hres Hsel Hpipe Hnorm.
  assert (H2i : identity_of ed2 = identity_of ed1) by (by rewrite H2, Hres).
  assert (Hai : identity_of a = identity_of ed1).
  { by destruct (Options.value o) as [[m|t]|]; inversion Ha. }
  assert (H3i : identity_of ed3 = identity_of ed1).
  { by destruct (Editor.children a) as [[|]|]; inversion H3. }
  assert (H4i : identity_of ed4 = identity_of ed1).
  { destruct (Options.selection o); [by inversion H4|].
    destruct (Options.autoSelect o) as [[| |[|]]|]; inversion H4; subst;
      by rewrite ?Hsel. }
  assert (H5i : identity_of ed5 = identity_of ed1).
  { destruct (value_truthy _); inversion H5; subst; by rewrite ?Hpipe. }
  destruct (flag_truthy _); inversion H6; subst; by rewrite ?Hnorm.
Qed.

(** C5, amended. The core plugins (built from [maxLength] and the user's
    plugins) come before the user's plugins as children of one root
    configuration with key [root] and priority 10000 that carries the
    caller's root-level fields; [resolvePlugins] is called exactly once, as
    the first call of the construction, on the descriptor created from that
    configuration, or, when a [rootPlugin] function is supplied, on what that
    function returns for it. *)
Theorem root_plugin_resolved_once w e ed o :
  editors w !! e = Some ed →
  ∃ w' evs,
    withSlate e o w = Returns e w' ∧
    trace w' = trace w ++ CallResolvePlugins [rootPluginInstance o] :: evs ∧
    Forall (λ ev, is_resolve_call ev = false) evs ∧
    rootPluginInstance o
    = (let root :=
         createSlatePlugin
           (mkConfig "root" 10000 (Options.pluginConfig o)
              (getCorePlugins (Options.maxLength o) (Options.plugins o)
               ++ Options.plugins o)) in
       match Options.rootPlugin o with
       | Some rootPlugin => rootPlugin root
       | None => root
       end).
Proof.
  intros He.
  destruct (withSlate_run w e ed o He)
    as (ed1 & ed2 & st2 & n2 & a & evsa & ed3 & evs3 & ed4 & evs4 & ed5
        & evs5 & ed' & evs' & Hst & _ & _ & Ha & H3 & H4 & H5 & H6).
  destruct Hst as (_ & _ & _ & _ & Hw).
  eexists _, (evs3 ++ evs4 ++ evs5 ++ evs'). split; [exact Hw|].
  split; [done|]. split; [|done].
  assert (Forall (λ ev, is_resolve_call ev = false) evsa).
  { destruct (Options.value o) as [[s|v]|]; inversion Ha; subst;
      repeat constructor. }
  repeat apply Forall_app_2.
  - destruct (Editor.children a) as [[|]|]; inversion H3; subst; try done.
    apply Forall_app_2; [done | by repeat constructor].
  - destruct (Options.selection o); [inversion H4; constructor|].
    destruct (Options.autoSelect o) as [[| |[|]]|]; inversion H4;
      by repeat constructor.
  - destruct (value_truthy _); inversion H5; by repeat constructor.
  - destruct (flag_truthy _); inversion H6; by repeat constructor.
Qed.


(** C4. Provided [create.value] never yields an empty list: content seeding
    never leaves the empty node list as the editor's children, and when the
    initial value is the empty node list it replaces it by the document
    [create.value] returns for the editor, which has at least one node. The
    returned editor is this one after selection seeding and the normalization
    passes; it carries that document if those collaborators leave the children
    alone. *)
Theorem empty_value_falls_back w e ed o :
  editors w !! e = Some ed →
  (∀ x, create_value x ≠ []) →
  ∃ w2 w3 w4 w' ed2 ed3 ed' doc,
    stages e o w w2 w3 w4 w' ∧
    editors w2 !! e = Some ed2 ∧
    editors w3 !! e = Some ed3 ∧
    editors w' !! e = Some ed' ∧
    Editor.children ed3 ≠ Some [] ∧
    doc = create_value (Editor.set_children (Some []) ed2) ∧
    doc ≠ [] ∧
    (Options.value o = Some (Tree []) →
     Editor.children ed3 = Some doc ∧
     trace w3 = trace w2 ++ [CallCreateValue] ∧
     ((∀ x p, Editor.children (select x p) = Editor.children x) →
      (∀ x, Editor.children (pipeNormalizeInitialValue x)
            = Editor.children x) →
      (∀ x b, Editor.children (normalizeEditor x b) = Editor.children x) →
      Editor.children ed' = Some doc)).
Proof.
  intros He Hcreate.
  destruct (withSlate_run w e ed o He)
    as (ed1 & ed2 & st2 & n2 & a & evsa & ed3 & evs3 & ed4 & evs4 & ed5
        & evs5 & ed' & evs' & Hst & _ & _ & Ha & H3 & H4 & H5 & H6).
  eexists _, _, _, _, ed2, ed3, ed', _. split; [exact Hst|].
  split; [apply lookup_insert_eq|]. split; [apply lookup_insert_eq|].
  split; [apply lookup_insert_eq|]. split; [|split; [reflexivity|]].
  { destruct (Editor.children a) as [[|n ns]|] eqn:Hc; inversion H3; subst;
      cbn; rewrite ?Hc; try done.
    intros Hx. inversion Hx as [Hy]. by apply Hcreate in Hy. }
  split; [apply Hcreate|].
  intros Hv. rewrite Hv in Ha, H5. inversion Ha; subst a evsa. cbn in H3, H5.
  inversion H3; subst ed3 evs3. inversion H5; subst ed5 evs5.
  split; [done|]. split; [cbn; by rewrite <- app_assoc|].
  intros Hsel Hpipe Hnorm.
  assert (Editor.children ed4
          = Some (create_value (Editor.set_children (Some []) ed2))) as H4c.
  { destruct (Options.selection o); [by inversion H4|].
    destruct (Options.autoSelect o) as [[| |[|]]|]; inversion H4; subst;
      by rewrite ?Hsel. }
  destruct (flag_truthy _); inversion H6; subst;
    by rewrite ?Hnorm, Hpipe.
Qed.

(** C10. [create.value] is called during a construction exactly when the
    children, once the initial value has been assigned, are present and the
    empty list. In particular, when no initial value is supplied, the
    editor's children are absent and resolution leaves them absent, content
    seeding changes nothing, [create.value] is not called, and the returned
    editor has no children if [select] and the full normalization leave the
    children alone. *)
Theorem fallback_only_on_empty_children w e ed o :
  editors w !! e = Some ed →
  ∃ w2 w3 w4 w' ed2 ed' evs,
    stages e o w w2 w3 w4 w' ∧
    editors w2 !! e = Some ed2 ∧
    editors w' !! e = Some ed' ∧
    trace w' = trace w ++ evs ∧
    (existsb is_create_value_call evs = true ↔
     match Options.value o with
     | Some (Markup s) => Some (html_deserialize ed2 s)
     | Some (Tree v) => Some v
     | None => Editor.children ed2
     end = Some []) ∧
    (Options.value o = None →
     Editor.children ed = None →
     (∀ x st roots,
         Editor.children (resolvePlugins x st roots).1 = Editor.children x) →
     w3 = w2 ∧
     Editor.children ed2 = None ∧
     existsb is_create_value_call evs = false ∧
     ((∀ x p, Editor.children (select x p) = Editor.children x) →
      (∀ x b, Editor.children (normalizeEditor x b) = Editor.children x) →
      Editor.children ed' = None)).
Proof.
  intros He.
  destruct (withSlate_run w e ed o He)
    as (ed1 & ed2 & st2 & n2 & a & evsa & ed3 & evs3 & ed4 & evs4 & ed5
        & evs5 & ed' & evs' & Hst & H1 & H2 & Ha & H3 & H4 & H5 & H6).
  assert (Hquiet4 : existsb is_create_value_call evs4 = false).
  { destruct (Options.selection o); [by inversion H4|].
    by destruct (Options.autoSelect o) as [[| |[|]]|]; inversion H4. }
  assert (Hquiet5 : existsb is_create_value_call evs5 = false).
  { by destruct (value_truthy _); inversion H5. }
  assert (Hquiet6 : existsb is_create_value_call evs' = false).
  { by destruct (flag_truthy _); inversion H6. }
  assert (Hquieta : existsb is_create_value_call evsa = false).
  { by destruct (Options.value o) as [[s|v]|]; inversion Ha. }
  assert (Hcalls : existsb is_create_value_call
                     ([CallResolvePlugins [rootPluginInstance o]]
                      ++ evs3 ++ evs4 ++ evs5 ++ evs')
                   = existsb is_create_value_call evs3).
  { rewrite !existsb_app, Hquiet4, Hquiet5, Hquiet6. cbn.
    by rewrite !orb_false_r. }
  eexists _, _, _, _, ed2, ed', _. split; [exact Hst|].
  split; [apply lookup_insert_eq|]. split; [apply lookup_insert_eq|].
  split; [reflexivity|]. cbn -[insert lookup existsb app].
  rewrite Hcalls. split.
  - assert (Hchildren : Editor.children a
                        = match Options.value o with
                          | Some (Markup s) => Some (html_deserialize ed2 s)
                          | Some (Tree v) => Some v
                          | None => Editor.children ed2
                          end).
    { by destruct (Options.value o) as [[s|v]|]; inversion Ha. }
    rewrite <- Hchildren.
    destruct (Editor.children a) as [[|n ns]|]; inversion H3; subst.
    + rewrite existsb_app. cbn. by rewrite orb_true_r.
    + by rewrite Hquieta.
    + by rewrite Hquieta.
  - intros Hv Hc Hresolve.
    assert (Hc2 : Editor.children ed2 = None).
    { rewrite H2, Hresolve, H1. exact Hc. }
    rewrite Hv in Ha, H5. inversion Ha; subst a evsa.
    rewrite Hc2 in H3. inversion H3; subst ed3 evs3.
    cbn in H5. inversion H5; subst ed5 evs5.
    split; [by rewrite app_nil_r|]. split; [done|]. split; [done|].
    intros Hsel Hnorm.
    assert (Editor.children ed4 = None) as H4c.
    { destruct (Options.selection o); [by inversion H4|].
      destruct (Options.autoSelect o) as [[| |[|]]|]; inversion H4; subst;
        by rewrite ?Hsel. }
    destruct (flag_truthy _); inversion H6; subst; by rewrite ?Hnorm.
Qed.

(** The initial-value normalization pass is called exactly when [value] is
    truthy, on the editor as selection seeding left it. *)
Lemma normalizeInitialValue_iff_truthy w e ed o :
  editors w !! e = Some ed →
  ∃ w2 w3 w4 w' ed4 evs evs',
    stages e o w w2 w3 w4 w' ∧
    editors w4 !! e = Some ed4 ∧
    trace w4 = trace w ++ evs ∧
    Forall (λ ev, is_normalize_initial_call ev = false) evs ∧
    trace w' = trace w4 ++ evs' ∧
    (if value_truthy (Options.value o)
     then ∃ rest, evs' = CallPipeNormalizeInitialValue :: rest
     else Forall (λ ev, is_normalize_initial_call ev = false) evs').
Proof.
  intros He.
  destruct (withSlate_run w e ed o He)
    as (ed1 & ed2 & st2 & n2 & a & evsa & ed3 & evs3 & ed4 & evs4 & ed5
        & evs5 & ed' & evs' & Hst & _ & _ & Ha & H3 & H4 & H5 & H6).
  eexists _, _, _, _, ed4, _, (evs5 ++ evs'). split; [exact Hst|].
  split; [apply lookup_insert_eq|]. split; [reflexivity|].
  cbn -[insert lookup]. split; [|split].
  - constructor; [done|].
    assert (Forall (λ ev, is_normalize_initial_call ev = false) evsa).
    { destruct (Options.value o) as [[s|v]|]; inversion Ha; subst;
        repeat constructor. }
    apply Forall_app_2.
    + destruct (Editor.children a) as [[|]|]; inversion H3; subst; try done.
      apply Forall_app_2; [done | by repeat constructor].
    + destruct (Options.selection o); [inversion H4; constructor|].
      destruct (Options.autoSelect o) as [[| |[|]]|]; inversion H4;
        by repeat constructor.
  - rewrite <- app_assoc. cbn. by rewrite <- app_assoc.
  - destruct (value_truthy _); inversion H5; subst.
    + by eexists.
    + destruct (flag_truthy _); inversion H6; by repeat constructor.
Qed.

(** *** More on the option indirection *)

(** X1. On a store-backed plugin, [setOption] on a declared field writes that
    field and no other: [getOptions] then reads the old state with the field
    updated, and [getOption] on any other declared field reads what it read
    before. *)
Theorem setOption_writes_only_its_field w e ed plugin l s field other v args :
  editors w !! e = Some ed →
  Plugin.optionsStore (getSlatePlugin ed plugin) = Some l →
  stores w !! l = Some s →
  field ∈ Store.fields s →
  other ∈ Store.fields s →
  other ≠ field →
  field ≠ "state" →
  field ≠ "mergeState" →
  other ≠ "state" →
  ∃ w',
    setOption e plugin field v w = Returns tt w' ∧
    getOptions e plugin w' = Returns (<[field := v]> (Store.state s)) w' ∧
    returned (getOption e plugin other args w')
    = returned (getOption e plugin other args w).
Proof.
  intros He Hl Hs Hf Ho Hne Hstate Hmerge Hostate.
  eexists. split; [|split].
  - rewrite (setOption_store_run _ _ _ _ _ _ _ _ He Hl Hs).
    by rewrite (store_set_declared _ _ Hf Hstate Hmerge).
  - erewrite getOptions_store_run;
      [| exact He | exact Hl | cbn; apply lookup_insert_eq]; done.
  - erewrite (getOption_store_run _ _ _ _ _ _ other);
      [| exact He | exact Hl | cbn; apply lookup_insert_eq].
    rewrite (getOption_store_run _ _ _ _ _ _ other args He Hl Hs).
    rewrite !store_get_declared by done. cbn.
    unfold Js.read. by rewrite lookup_insert_ne.
Qed.

(** X2. [setOption] on one plugin is not seen through another plugin that
    does not share its store: whatever [getOption] and [getOptions] returned
    for the other plugin before, they return after. *)
Theorem setOption_leaves_other_plugins w e ed plugin other l s field v :
  editors w !! e = Some ed →
  Plugin.optionsStore (getSlatePlugin ed plugin) = Some l →
  stores w !! l = Some s →
  Plugin.optionsStore (getSlatePlugin ed other) ≠ Some l →
  ∃ w',
    setOption e plugin field v w = Returns tt w' ∧
    returned (getOptions e other w') = returned (getOptions e other w) ∧
    ∀ key args,
      returned (getOption e other key args w')
      = returned (getOption e other key args w).
Proof.
  intros He Hl Hs Hother.
  assert (∃ w', setOption e plugin field v w = Returns tt w' ∧
                editors w' = editors w ∧
                ∀ l', l' ≠ l → stores w' !! l' = stores w !! l')
    as (w' & Hset & Hed & Hst).
  { rewrite (setOption_store_run _ _ _ _ _ _ _ _ He Hl Hs).
    destruct (Store.set s field); eexists; (split; [done|]); (split; [done|]);
      intros l' Hl'; cbn; [by rewrite lookup_insert_ne | done]. }
  assert (He' : editors w' !! e = Some ed) by (by rewrite Hed).
  exists w'. split; [exact Hset|]. split.
  - unfold getOptions.
    rewrite !(bind_run _ _ _ _ _ (getOptionsStore_run _ _ _ other He)).
    rewrite !(bind_run _ _ _ _ _ (getOptionsStore_run _ _ _ other He')).
    destruct (Plugin.optionsStore (getSlatePlugin ed other)) as [l'|] eqn:Hl'.
    + rewrite !(bind_run _ _ _ _ _ (getOptionsStore_run _ _ _ other He)).
      rewrite !(bind_run _ _ _ _ _ (getOptionsStore_run _ _ _ other He')).
      rewrite Hl'. unfold mbind, M_bind, readStore.
      rewrite Hst by congruence. by destruct (stores w !! l').
    + by rewrite (bind_run _ _ _ _ _ (getPlugin_run _ _ _ other He)),
        (bind_run _ _ _ _ _ (getPlugin_run _ _ _ other He')).
  - intros key args. unfold getOption.
    rewrite !(bind_run _ _ _ _ _ (getOptionsStore_run _ _ _ other He)).
    rewrite !(bind_run _ _ _ _ _ (getOptionsStore_run _ _ _ other He')).
    destruct (Plugin.optionsStore (getSlatePlugin ed other)) as [l'|] eqn:Hl'.
    + unfold mbind, M_bind, readStore.
      rewrite Hst by congruence. destruct (stores w !! l') as [s'|]; [|done].
      by destruct (Store.get s' key).
    + by rewrite (bind_run _ _ _ _ _ (getPlugin_run _ _ _ other He)),
        (bind_run _ _ _ _ _ (getPlugin_run _ _ _ other He')).
Qed.

(** X3. Two [setOption]s on the same declared field leave the world as the
    second one alone does: the last write wins and the first leaves no
    trace. *)
Theorem setOption_last_write_wins w e ed plugin l s field v1 v2 :
  editors w !! e = Some ed →
  Plugin.optionsStore (getSlatePlugin ed plugin) = Some l →
  stores w !! l = Some s →
  field ∈ Store.fields s →
  field ≠ "state" →
  field ≠ "mergeState" →
  (setOption e plugin field v1;; setOption e plugin field v2) w
  = setOption e plugin field v2 w.
Proof.
  intros He Hl Hs Hf Hstate Hmerge.
  assert (H1 : setOption e plugin field v1 w
               = Returns tt
                   (with_stores
                      (<[l := Store.with_state
                                (<[field := v1]> (Store.state s)) s]>
                         (stores w)) w)).
  { rewrite (setOption_store_run _ _ _ _ _ _ _ _ He Hl Hs).
    by rewrite (store_set_declared _ _ Hf Hstate Hmerge). }
  rewrite (bind_run _ _ _ _ _ H1).
  erewrite setOption_store_run;
    [| exact He | exact Hl | cbn; apply lookup_insert_eq].
  rewrite (setOption_store_run _ _ _ _ _ _ _ _ He Hl Hs).
  rewrite !store_set_declared by done.
  unfold with_stores. cbn. by rewrite !insert_insert_eq.
Qed.

(** X4. The two readers agree: on a store-backed plugin [getOption] on a
    declared field returns that field of what [getOptions] returns, and on a
    plugin with a plain bag it does so for every key; an absent key reads as
    [undefined]. Neither reader changes the world. *)
Theorem getOption_agrees_with_getOptions w e ed plugin field args :
  editors w !! e = Some ed →
  (∀ l s,
      Plugin.optionsStore (getSlatePlugin ed plugin) = Some l →
      stores w !! l = Some s →
      field ∈ Store.fields s →
      field ≠ "state" →
      ∃ snapshot,
        getOptions e plugin w = Returns snapshot w ∧
        getOption e plugin field args w = Returns (Js.read snapshot field) w) ∧
  (Plugin.optionsStore (getSlatePlugin ed plugin) = None →
   ∃ bag,
     getOptions e plugin w = Returns bag w ∧
     getOption e plugin field args w = Returns (Js.read bag field) w ∧
     (bag !! field = None → Js.read bag field = Js.Undefined)).
Proof.
  intros He. split.
  - intros l s Hl Hs Hf Hstate. exists (Store.state s).
    split; [by apply (getOptions_store_run _ _ ed _ l)|].
    rewrite (getOption_store_run _ _ _ _ _ _ _ _ He Hl Hs).
    by rewrite (store_get_declared _ _ Hf Hstate).
  - intros Hl. exists (Plugin.options (getSlatePlugin ed plugin)).
    split; [|split].
    + unfold getOptions.
      rewrite (bind_run _ _ _ _ _ (getOptionsStore_run _ _ _ plugin He)), Hl.
      by rewrite (bind_run _ _ _ _ _ (getPlugin_run _ _ _ plugin He)).
    + unfold getOption.
      rewrite (bind_run _ _ _ _ _ (getOptionsStore_run _ _ _ plugin He)), Hl.
      by rewrite (bind_run _ _ _ _ _ (getPlugin_run _ _ _ plugin He)).
    + intros Hnone. unfold Js.read. by rewrite Hnone.
Qed.

(** X5. [setOptions] with a patch that is neither an object nor a function
    does nothing, on a store-backed plugin as on a plain bag: no store is
    read or written and nothing is reported. *)
Theorem setOptions_primitive_does_nothing w e ed plugin p :
  editors w !! e = Some ed →
  setOptions e plugin (PatchPrimitive p) w = Returns tt w.
Proof.
  intros He. unfold setOptions.
  rewrite (bind_run _ _ _ _ _ (getOptionsStore_run _ _ _ plugin He)).
  by destruct (Plugin.optionsStore (getSlatePlugin ed plugin)).
Qed.

(** X6. [getInjectProps] never returns [undefined] or [null]: it returns the
    plugin's [inject.nodeProps] when that is present and not nullish, and the
    empty object when the plugin has no [inject] rules or its [nodeProps] is
    nullish. It changes nothing. *)
Theorem getInjectProps_never_nullish w e ed plugin :
  editors w !! e = Some ed →
  ∃ props,
    getInjectProps e plugin w = Returns props w ∧
    Js.nullish props = false ∧
    (∀ rules,
        Plugin.inject (getSlatePlugin ed plugin) = Some rules →
        Js.nullish (Plugin.nodeProps rules) = false →
        props = Plugin.nodeProps rules) ∧
    (∀ rules,
        Plugin.inject (getSlatePlugin ed plugin) = Some rules →
        Js.nullish (Plugin.nodeProps rules) = true →
        props = Js.Obj []) ∧
    (Plugin.inject (getSlatePlugin ed plugin) = None → props = Js.Obj []).
Proof.
  intros He. unfold getInjectProps.
  rewrite (bind_run _ _ _ _ _ (getPlugin_run _ _ _ plugin He)).
  destruct (Plugin.inject (getSlatePlugin ed plugin)) as [rules|].
  - eexists. split; [reflexivity|]. unfold Js.coalesce.
    destruct (Js.nullish (Plugin.nodeProps rules)) eqn:Hn.
    + split; [done|]. split; [|split; [|done]].
      * intros r Hr Hr'. inversion Hr; subst. congruence.
      * done.
    + split; [done|]. split; [|split; [|done]].
      * intros r Hr _. by inversion Hr.
      * intros r Hr Hr'. inversion Hr; subst. congruence.
  - eexists. split; [reflexivity|]. split; [done|]. split; [done|].
    split; done.
Qed.

(** *** More on the construction *)

(** X7. A markup string as initial value is deserialized on the editor as
    resolution left it, and the result becomes the children; when the result
    is the empty list it is replaced by the document of [create.value],
    called on the editor that holds the empty list. No other call is made
    while content is seeded. *)
Theorem markup_value_is_deserialized w e ed o markup :
  editors w !! e = Some ed →
  Options.value o = Some (Markup markup) →
  ∃ w2 w3 w4 w' ed2 ed3,
    stages e o w w2 w3 w4 w' ∧
    editors w2 !! e = Some ed2 ∧
    editors w3 !! e = Some ed3 ∧
    match html_deserialize ed2 markup with
    | [] =>
        Editor.children ed3
        = Some (create_value (Editor.set_children (Some []) ed2)) ∧
        trace w3 = trace w2 ++ [CallDeserialize markup; CallCreateValue]
    | doc =>
        ed3 = Editor.set_children (Some doc) ed2 ∧
        trace w3 = trace w2 ++ [CallDeserialize markup]
    end.
Proof.
  intros He Hv.
  destruct (withSlate_run w e ed o He)
    as (ed1 & ed2 & st2 & n2 & a & evsa & ed3 & evs3 & ed4 & evs4 & ed5
        & evs5 & ed' & evs' & Hst & _ & _ & Ha & H3 & _).
  rewrite Hv in Ha. inversion Ha; subst a evsa. cbn in H3.
  eexists _, _, _, _, ed2, ed3. split; [exact Hst|].
  split; [apply lookup_insert_eq|]. split; [apply lookup_insert_eq|].
  destruct (html_deserialize ed2 markup) as [|n ns]; inversion H3; subst;
    cbn; by rewrite <- ?app_assoc.
Qed.

(** X8. A non-empty structured initial value becomes the children as it is:
    content seeding changes no other field and calls no collaborator. *)
Theorem tree_value_is_used_directly w e ed o n ns :
  editors w !! e = Some ed →
  Options.value o = Some (Tree (n :: ns)) →
  ∃ w2 w3 w4 w' ed2,
    stages e o w w2 w3 w4 w' ∧
    editors w2 !! e = Some ed2 ∧
    editors w3 !! e = Some (Editor.set_children (Some (n :: ns)) ed2) ∧
    trace w3 = trace w2 ∧
    stores w3 = stores w2.
Proof.
  intros He Hv.
  destruct (withSlate_run w e ed o He)
    as (ed1 & ed2 & st2 & n2 & a & evsa & ed3 & evs3 & ed4 & evs4 & ed5
        & evs5 & ed' & evs' & Hst & _ & _ & Ha & H3 & _).
  rewrite Hv in Ha. inversion Ha; subst a evsa. cbn in H3.
  inversion H3; subst ed3 evs3.
  eexists _, _, _, _, ed2. split; [exact Hst|].
  split; [apply lookup_insert_eq|]. split; [apply lookup_insert_eq|].
  cbn. by rewrite ?app_nil_r.
Qed.

(** X9. Without an initial value the editor's own children decide: an empty
    list is replaced by the document of [create.value] (and, no value having
    been passed, that document does not go through the initial-value
    normalization), while a non-empty list is kept and content seeding changes
    nothing at all. *)
Theorem no_value_keeps_or_defaults_children w e ed o :
  editors w !! e = Some ed →
  Options.value o = None →
  ∃ w2 w3 w4 w' ed2 ed3 evs,
    stages e o w w2 w3 w4 w' ∧
    editors w2 !! e = Some ed2 ∧
    editors w3 !! e = Some ed3 ∧
    trace w' = trace w ++ evs ∧
    existsb is_normalize_initial_call evs = false ∧
    match Editor.children ed2 with
    | Some [] =>
        ed3 = Editor.set_children (Some (create_value ed2)) ed2 ∧
        trace w3 = trace w2 ++ [CallCreateValue]
    | _ => w3 = w2
    end.
Proof.
  intros He Hv.
  destruct (withSlate_run w e ed o He)
    as (ed1 & ed2 & st2 & n2 & a & evsa & ed3 & evs3 & ed4 & evs4 & ed5
        & evs5 & ed' & evs' & Hst & _ & _ & Ha & H3 & H4 & H5 & H6).
  rewrite Hv in Ha, H5. inversion Ha; subst a evsa.
  cbn in H5. inversion H5; subst ed5 evs5.
  eexists _, _, _, _, ed2, ed3, _. split; [exact Hst|].
  split; [apply lookup_insert_eq|]. split; [apply lookup_insert_eq|].
  split; [reflexivity|]. split.
  - assert (existsb is_normalize_initial_call evs3 = false).
    { by destruct (Editor.children ed2) as [[|]|]; inversion H3. }
    assert (existsb is_normalize_initial_call evs4 = false).
    { destruct (Options.selection o); [by inversion H4|].
      by destruct (Options.autoSelect o) as [[| |[|]]|]; inversion H4. }
    assert (existsb is_normalize_initial_call evs' = false).
    { by destruct (flag_truthy _); inversion H6. }
    rewrite !existsb_app. cbn.
    repeat match goal with Hq : existsb _ _ = false |- _ => rewrite Hq end.
    done.
  - destruct (Editor.children ed2) as [[|n ns]|] eqn:Hc; inversion H3; subst;
      cbn; rewrite ?app_nil_r; try done.
    + by rewrite <- app_assoc.
Qed.

(** X10. The full normalization is requested by [shouldNormalizeEditor] alone:
    when it is [true], [normalizeEditor] is the last call of the construction,
    is made once, with [force: true], and the returned editor is its result;
    when it is [false] or omitted, [normalizeEditor] is not called. *)
Theorem full_normalization_is_last w e ed o :
  editors w !! e = Some ed →
  ∃ w' ed' evs,
    withSlate e o w = Returns e w' ∧
    editors w' !! e = Some ed' ∧
    trace w' = trace w ++ evs ∧
    match Options.shouldNormalizeEditor o with
    | Some true =>
        ∃ before earlier,
          evs = earlier ++ [CallNormalizeEditor true] ∧
          existsb is_normalize_editor_call earlier = false ∧
          ed' = normalizeEditor before true
    | Some false | None => existsb is_normalize_editor_call evs = false
    end.
Proof.
  intros He.
  destruct (withSlate_run w e ed o He)
    as (ed1 & ed2 & st2 & n2 & a & evsa & ed3 & evs3 & ed4 & evs4 & ed5
        & evs5 & ed' & evs' & Hst & _ & _ & Ha & H3 & H4 & H5 & H6).
  destruct Hst as (_ & _ & _ & _ & Hw).
  assert (Hqa : existsb is_normalize_editor_call evsa = false).
  { by destruct (Options.value o) as [[s|v]|]; inversion Ha. }
  assert (Hq3 : existsb is_normalize_editor_call evs3 = false).
  { destruct (Editor.children a) as [[|]|]; inversion H3; subst; try done.
    rewrite existsb_app, Hqa. done. }
  assert (Hq4 : existsb is_normalize_editor_call evs4 = false).
  { destruct (Options.selection o); [by inversion H4|].
    by destruct (Options.autoSelect o) as [[| |[|]]|]; inversion H4. }
  assert (Hq5 : existsb is_normalize_editor_call evs5 = false).
  { by destruct (value_truthy _); inversion H5. }
  eexists _, ed', _. split; [exact Hw|]. split; [apply lookup_insert_eq|].
  split; [reflexivity|].
  destruct (Options.shouldNormalizeEditor o) as [[|]|]; cbn in H6;
    inversion H6; subst.
  - exists ed5, ([CallResolvePlugins [rootPluginInstance o]]
                 ++ evs3 ++ evs4 ++ evs5).
    split; [by rewrite <- !app_assoc|]. split; [|done].
    rewrite !existsb_app, Hq3, Hq4, Hq5. done.
  - rewrite !existsb_app, Hq3, Hq4, Hq5. done.
  - rewrite !existsb_app, Hq3, Hq4, Hq5. done.
Qed.

(** X11. Whatever the options, the collaborators are called in the order of
    the source text and each at most once: plugin resolution, then markup
    deserialization, then [create.value], then one of the two point
    computations, then [select], then the initial-value normalization, then
    the full normalization. Resolution is always first, and the construction
    itself reports no diagnostic. *)
Theorem calls_follow_the_pipeline w e ed o :
  editors w !! e = Some ed →
  ∃ w' rest,
    withSlate e o w = Returns e w' ∧
    trace w' = trace w ++ CallResolvePlugins [rootPluginInstance o] :: rest ∧
    StronglySorted lt (stage_of <$> CallResolvePlugins [rootPluginInstance o]
                                    :: rest) ∧
    existsb is_diagnostic rest = false.
Proof.
  intros He.
  destruct (withSlate_run w e ed o He)
    as (ed1 & ed2 & st2 & n2 & a & evsa & ed3 & evs3 & ed4 & evs4 & ed5
        & evs5 & ed' & evs' & Hst & _ & _ & Ha & H3 & H4 & H5 & H6).
  destruct Hst as (_ & _ & _ & _ & Hw).
  eexists _, (evs3 ++ evs4 ++ evs5 ++ evs'). split; [exact Hw|].
  split; [reflexivity|].
  assert (Hcases :
    (evs3 = [] ∨ (∃ m, evs3 = [CallDeserialize m]) ∨ evs3 = [CallCreateValue]
     ∨ ∃ m, evs3 = [CallDeserialize m; CallCreateValue]) ∧
    (evs4 = [] ∨ (∃ p, evs4 = [CallGetStartPoint []; CallSelect p])
     ∨ ∃ p, evs4 = [CallGetEndPoint []; CallSelect p]) ∧
    (evs5 = [] ∨ evs5 = [CallPipeNormalizeInitialValue]) ∧
    (evs' = [] ∨ evs' = [CallNormalizeEditor true])).
  { repeat split.
    - destruct (Options.value o) as [[m|t]|]; inversion Ha; subst;
        destruct (Editor.children _) as [[|]|]; inversion H3; subst; eauto.
    - destruct (Options.selection o); [inversion H4; auto|].
      destruct (Options.autoSelect o) as [[| |[|]]|]; inversion H4; subst;
        eauto.
    - destruct (value_truthy _); inversion H5; auto.
    - destruct (flag_truthy _); inversion H6; auto. }
  destruct Hcases as (Hc3 & Hc4 & Hc5 & Hc6).
  destruct Hc3 as [->|[[m ->]|[->|[m ->]]]];
    destruct Hc4 as [->|[[p ->]|[p ->]]];
    destruct Hc5 as [->| ->]; destruct Hc6 as [->| ->]; cbn;
    (split; [repeat (constructor; try lia) | reflexivity]).
Qed.

(** X13. The identity step is idempotent as long as [Math.random] does not
    return [undefined] or [null]: run again with the same options it changes
    nothing, and in particular draws no second random key. *)
Theorem assignIdentity_idempotent w e ed o :
  editors w !! e = Some ed →
  (∀ n, Js.nullish (Math_random n) = false) →
  ∃ w1,
    assignIdentity e o w = Returns tt w1 ∧
    assignIdentity e o w1 = Returns tt w1.
Proof.
  intros He Hrandom.
  pose proof (assignIdentity_run w e ed o He) as H1.
  set (ed1 := Editor.mk _ _ _ _ _ _ _ _) in H1.
  set (w1 := mkWorld _ _ _ _) in H1.
  assert (He1 : editors w1 !! e = Some ed1) by apply lookup_insert_eq.
  exists w1. split; [exact H1|].
  rewrite (assignIdentity_run w1 e ed1 o He1).
  assert (Hkey : Js.nullish (Editor.key ed1) = false).
  { unfold ed1. cbn. destruct (Js.nullish (Editor.key ed)) eqn:Hk;
      [apply Hrandom | exact Hk]. }
  rewrite Hkey. unfold w1 at 2 3 4 5. cbn -[insert lookup].
  rewrite insert_insert_eq. unfold w1. do 3 f_equal.
  unfold ed1, Js.coalesce. cbn.
  by destruct (Js.nullish (Options.id o)).
Qed.


(** X15. The returned editor is the editor as selection seeding left it,
    passed through [pipeNormalizeInitialValue] when the [value] option is
    truthy (a structured value or a non-empty markup string) and then through
    [normalizeEditor] with [force: true] when [shouldNormalizeEditor] is
    [true]; the two calls are the only ones made after the selection is
    seeded, in that order. *)
Theorem returned_editor_after_normalization w e ed o :
  editors w !! e = Some ed →
  ∃ w2 w3 w4 w' ed4 ed',
    stages e o w w2 w3 w4 w' ∧
    editors w4 !! e = Some ed4 ∧
    editors w' !! e = Some ed' ∧
    match value_truthy (Options.value o),
          flag_truthy (Options.shouldNormalizeEditor o) with
    | true, true =>
        ed' = normalizeEditor (pipeNormalizeInitialValue ed4) true ∧
        trace w' = trace w4 ++ [CallPipeNormalizeInitialValue;
                                CallNormalizeEditor true]
    | true, false =>
        ed' = pipeNormalizeInitialValue ed4 ∧
        trace w' = trace w4 ++ [CallPipeNormalizeInitialValue]
    | false, true =>
        ed' = normalizeEditor ed4 true ∧
        trace w' = trace w4 ++ [CallNormalizeEditor true]
    | false, false => ed' = ed4 ∧ trace w' = trace w4
    end.
Proof.
  intros He.
  destruct (withSlate_run w e ed o He)
    as (ed1 & ed2 & st2 & n2 & a & evsa & ed3 & evs3 & ed4 & evs4 & ed5
        & evs5 & ed' & evs' & Hst & _ & _ & _ & _ & _ & H5 & H6).
  eexists _, _, _, _, ed4, ed'. split; [exact Hst|].
  split; [apply lookup_insert_eq|]. split; [apply lookup_insert_eq|].
  cbn -[insert lookup].
  destruct (value_truthy _); inversion H5; subst;
    destruct (flag_truthy _); inversion H6; subst;
    (split; [done|]); rewrite <- ?app_assoc; cbn; by rewrite <- ?app_assoc, ?app_nil_r.
Qed.

End Properties.

(** ** The theorems on concrete inputs *)

(** C1 as stated fails on a field the store does not declare: on the plugin
    [list], whose reactive store declares [mode] and [limit] only, writing 1
    to [indent] and reading [indent] back returns [undefined], not 1. *)
Lemma setOption_getOption_undeclared_counterexample :
  Plugin.optionsStore (getSlatePlugin Sample.resolved (mkRef "list")) = Some 7 ∧
  stores (Sample.world Sample.resolved) !! 7 = Some Sample.list_store ∧
  ∃ w' w'',
    setOption 0 (mkRef "list") "indent" (Js.Num 1) (Sample.world Sample.resolved)
    = Returns tt w' ∧
    getOption 0 (mkRef "list") "indent" [] w' = Returns Js.Undefined w'' ∧
    Js.Undefined ≠ Js.Num 1.
Proof.
  split; [reflexivity|]. split; [reflexivity|].
  eexists _, _. split; [vm_compute; reflexivity|].
  split; [vm_compute; reflexivity | discriminate].
Qed.

(** On the sample editor: writing [mode] on the store-backed plugin and
    reading it back, and reading [target] off the plain bag. *)
Lemma setOption_getOption_declared_witness :
  (∃ w',
      setOption 0 (mkRef "list") "mode" (Js.Str "nested")
                (Sample.world Sample.resolved) = Returns tt w' ∧
      getOption 0 (mkRef "list") "mode" [] w' = Returns (Js.Str "nested") w' ∧
      trace w' = trace (Sample.world Sample.resolved)) ∧
  getOption 0 (mkRef "link") "target" [] (Sample.world Sample.resolved)
  = Returns (Js.Str "_blank") (Sample.world Sample.resolved).
Proof.
  split.
  - refine (proj1 (setOption_getOption_declared
                     (Sample.world Sample.resolved) 0 Sample.resolved
                     (mkRef "list") "mode" (Js.Str "nested") [] _)
                  7 Sample.list_store _ _ _ _ _).
    + reflexivity.
    + reflexivity.
    + reflexivity.
    + vm_compute. reflexivity.
    + discriminate.
    + discriminate.
  - refine (proj1 (proj2 (proj2 (setOption_getOption_declared
                     (Sample.world Sample.resolved) 0 Sample.resolved
                     (mkRef "link") "target" (Js.Str "unused") [] _) _))).
    + reflexivity.
    + reflexivity.
Defined.

(** C2 as stated fails on keys that are not declared fields but to which
    the store's accessor objects answer all the same. On the plugin [list],
    whose store declares [mode] and [limit] only: [getOption] at the key
    [state] finds the state getter, returns the state and reports nothing;
    [setOption] at the key [mergeState] finds the bulk merge, writes the store
    and reports nothing; [getOption] at the inherited key [toString] finds the
    inherited member and reports nothing. *)
Lemma operation_keys_counterexample :
  ("state" ∉ Store.fields Sample.list_store) ∧
  ("mergeState" ∉ Store.fields Sample.list_store) ∧
  ("toString" ∉ Store.fields Sample.list_store) ∧
  (∃ snapshot,
      getOption 0 (mkRef "list") "state" [] (Sample.world Sample.resolved)
      = Returns snapshot (Sample.world Sample.resolved) ∧
      snapshot ≠ Js.Undefined ∧
      trace (Sample.world Sample.resolved) = []) ∧
  (∃ w',
      setOption 0 (mkRef "list") "mergeState"
                (Js.Obj [("mode", Js.Str "nested")])
                (Sample.world Sample.resolved) = Returns tt w' ∧
      trace w' = [] ∧
      stores w' ≠ stores (Sample.world Sample.resolved) ∧
      getOption 0 (mkRef "list") "mode" [] w' = Returns (Js.Str "nested") w') ∧
  (∃ answer,
      getOption 0 (mkRef "list") "toString" [] (Sample.world Sample.resolved)
      = Returns answer (Sample.world Sample.resolved)).
Proof.
  split; [vm_compute; intros Hx; discriminate Hx|].
  split; [vm_compute; intros Hx; discriminate Hx|].
  split; [vm_compute; intros Hx; discriminate Hx|].
  split; [|split].
  - eexists. split; [vm_compute; reflexivity|].
    split; [discriminate | reflexivity].
  - eexists. split; [vm_compute; reflexivity|].
    split; [reflexivity|]. split; [|vm_compute; reflexivity].
    intros Heq. apply (f_equal (λ h, Store.state <$> h !! 7)) in Heq.
    vm_compute in Heq. discriminate Heq.
  - eexists. vm_compute. reflexivity.
Qed.

(** On the sample editor: [indent] is neither declared on the store of
    [list], nor the name of an operation, nor inherited. *)
Lemma undeclared_option_reports_and_returns_witness :
  ("indent" ∉ Store.fields Sample.list_store) ∧
  (∃ w' message,
      getOption 0 (mkRef "list") "indent" [] (Sample.world Sample.resolved)
      = Returns Js.Undefined w' ∧
      trace w' = [DebugError message "OPTION_UNDEFINED"]) ∧
  (∃ w' message,
      setOption 0 (mkRef "list") "indent" (Js.Num 1)
                (Sample.world Sample.resolved) = Returns tt w' ∧
      trace w' = [DebugError message "OPTION_UNDEFINED"] ∧
      stores w' = stores (Sample.world Sample.resolved)).
Proof.
  assert (Hin : "indent" ∉ Store.fields Sample.list_store).
  { vm_compute. intros Hx. discriminate Hx. }
  assert (Hl : Plugin.optionsStore
                 (getSlatePlugin Sample.resolved (mkRef "list")) = Some 7)
    by reflexivity.
  assert (Hinh : "indent" ∉ Store.inherited Sample.list_store).
  { vm_compute. intros Hx. discriminate Hx. }
  assert (Hstate : "indent" ≠ "state") by discriminate.
  assert (Hmerge : "indent" ≠ "mergeState") by discriminate.
  split; [exact Hin|].
  destruct (undeclared_option_reports_and_returns
              (Sample.world Sample.resolved) 0 Sample.resolved (mkRef "list") 7
              Sample.list_store "indent" (Js.Num 1) []
              eq_refl Hl eq_refl Hin Hinh Hstate)
    as [(w1 & m1 & Hget & Ht1 & _) Hset].
  destruct (Hset Hmerge) as (w2 & m2 & Hset2 & Ht2 & Hs2 & _).
  split; [exists w1, m1 | exists w2, m2]; auto.
Defined.

(** On the sample editor: merging a mapping into the store of [list], and
    the same call on the plain bag of [link]. *)
Lemma setOptions_merges_or_replaces_witness :
  (∃ w',
      setOptions 0 (mkRef "list") (PatchObject {[ "limit" := Js.Num 5 ]})
                 (Sample.world Sample.resolved) = Returns tt w' ∧
      getOptions 0 (mkRef "list") w'
      = Returns ({[ "limit" := Js.Num 5 ]} ∪ Store.state Sample.list_store) w') ∧
  setOptions 0 (mkRef "link") (PatchObject {[ "target" := Js.Str "_self" ]})
             (Sample.world Sample.resolved)
  = Returns tt (Sample.world Sample.resolved).
Proof.
  pose proof (setOptions_merges_or_replaces
                (Sample.world Sample.resolved) 0 Sample.resolved (mkRef "list")
                eq_refl) as [Hstore _].
  pose proof (setOptions_merges_or_replaces
                (Sample.world Sample.resolved) 0 Sample.resolved (mkRef "link")
                eq_refl) as [_ Hbag].
  assert (Hl : Plugin.optionsStore
                 (getSlatePlugin Sample.resolved (mkRef "list")) = Some 7)
    by reflexivity.
  split.
  - destruct (Hstore 7 Sample.list_store Hl eq_refl) as [Hobj _].
    destruct (Hobj {[ "limit" := Js.Num 5 ]}) as (w' & Hset & _ & _ & _ & Hget).
    exists w'. auto.
  - apply Hbag. reflexivity.
Defined.

(** On the sample editor: the same namespaces for two different plugins. *)
Lemma getApi_getTransforms_ignore_plugin_witness :
  getApi 0 (mkRef "list") (Sample.world Sample.resolved)
  = Returns (Editor.api Sample.resolved) (Sample.world Sample.resolved) ∧
  getApi 0 (mkRef "link") (Sample.world Sample.resolved)
  = Returns (Editor.api Sample.resolved) (Sample.world Sample.resolved) ∧
  getTransforms 0 (mkRef "link") (Sample.world Sample.resolved)
  = Returns (Editor.transforms Sample.resolved) (Sample.world Sample.resolved).
Proof.
  pose proof (getApi_getTransforms_ignore_plugin
                (Sample.world Sample.resolved) 0 Sample.resolved eq_refl) as Hw.
  split; [apply (Hw (mkRef "list"))|]. apply (Hw (mkRef "link")).
Defined.

(** Constructing on the bare sample editor at address 0, which has the id 1
    and no key: the returned editor has the id [main] and the first random
    draw as its key. *)
Lemma withSlate_same_editor_and_identity_witness :
  editors (Sample.world Sample.bare) !! 0 = Some Sample.bare ∧
  ∃ w' ed',
    withSlate 0 Sample.start_options (Sample.world Sample.bare) = Returns 0 w' ∧
    editors w' !! 0 = Some ed' ∧
    identity_of ed' = (Js.Str "main", Js.Num 0, Js.Bool false).
Proof.
  split; [reflexivity|].
  destruct (withSlate_same_editor_and_identity
              (Sample.world Sample.bare) 0 Sample.bare Sample.start_options
              eq_refl)
    as (w1 & ed1 & w2 & w3 & w4 & w' & ed' & _ & _ & Hid & Hkey & _ & Hfb
        & _ & _ & _ & Hw & He' & Hframe).
  exists w', ed'. split; [exact Hw|]. split; [exact He'|].
  rewrite Hframe; [| intros; reflexivity ..].
  unfold identity_of. by rewrite Hid, Hkey, Hfb.
Defined.

(** C5 as stated fails when a [rootPlugin] function is supplied: the
    descriptor handed to [resolvePlugins] is what that function returns, here a
    root of priority 1, and not the descriptor created with priority 10000. *)
Lemma root_plugin_configured_counterexample :
  ∃ w' root,
    withSlate 0 Sample.reprioritized_options (Sample.world Sample.bare)
    = Returns 0 w' ∧
    trace w' = [CallResolvePlugins [root]] ∧
    cfg_priority (Sample.config_of root) = 1%Z ∧
    cfg_priority (rootConfig Sample.reprioritized_options) = 10000%Z ∧
    root ≠ createSlatePlugin (rootConfig Sample.reprioritized_options).
Proof.
  eexists _, _. split; [vm_compute; reflexivity|].
  split; [vm_compute; reflexivity|].
  split; [reflexivity|]. split; [reflexivity|].
  vm_compute. discriminate.
Qed.

(** Constructing with a [rootPlugin] function: the first call is the
    resolution of what that function returned. *)
Lemma root_plugin_resolved_once_witness :
  editors (Sample.world Sample.bare) !! 0 = Some Sample.bare ∧
  ∃ w' evs,
    withSlate 0 Sample.reprioritized_options (Sample.world Sample.bare)
    = Returns 0 w' ∧
    trace w'
    = CallResolvePlugins [rootPluginInstance Sample.reprioritized_options]
        :: evs.
Proof.
  split; [reflexivity|].
  destruct (root_plugin_resolved_once
              (Sample.world Sample.bare) 0 Sample.bare
              Sample.reprioritized_options eq_refl)
    as (w' & evs & Hw & Ht & _).
  exists w', evs. auto.
Defined.


(** Constructing with [value: []] and the sample [create.value]. *)
Lemma empty_value_falls_back_witness :
  Options.value Sample.empty_tree_options = Some (Tree []) ∧
  (∀ x, create_value (P := Sample.Descriptor) x ≠ []) ∧
  ∃ w' ed',
    withSlate 0 Sample.empty_tree_options (Sample.world Sample.bare)
    = Returns 0 w' ∧
    editors w' !! 0 = Some ed' ∧
    Editor.children ed' = Some [Sample.paragraph EmptyString].
Proof.
  assert (Hcreate : ∀ x, create_value (P := Sample.Descriptor) x ≠ [])
    by (intros x; discriminate).
  split; [reflexivity|]. split; [exact Hcreate|].
  destruct (empty_value_falls_back
              (Sample.world Sample.bare) 0 Sample.bare Sample.empty_tree_options
              eq_refl Hcreate)
    as (w2 & w3 & w4 & w' & ed2 & ed3 & ed' & doc & Hst & _ & _ & He' & _
        & Hdoc & _ & Hempty).
  destruct (Hempty eq_refl) as (_ & _ & Hret).
  exists w', ed'. destruct Hst as (_ & _ & _ & _ & Hw).
  split; [exact Hw|]. split; [exact He'|].
  rewrite Hret; [by rewrite Hdoc | done | done | done].
Defined.

(** Constructing with no options on an editor without children. *)
Lemma fallback_only_on_empty_children_witness :
  Editor.children Sample.bare = None ∧
  ∃ w' ed' evs,
    withSlate 0 Options.empty (Sample.world Sample.bare) = Returns 0 w' ∧
    editors w' !! 0 = Some ed' ∧
    trace w' = trace (Sample.world Sample.bare) ++ evs ∧
    existsb is_create_value_call evs = false ∧
    Editor.children ed' = None.
Proof.
  assert (Hresolve :
            ∀ x st (roots : list Sample.Descriptor),
              Editor.children (resolvePlugins x st roots).1 = Editor.children x)
    by (intros; reflexivity).
  split; [reflexivity|].
  destruct (fallback_only_on_empty_children
              (Sample.world Sample.bare) 0 Sample.bare Options.empty eq_refl)
    as (w2 & w3 & w4 & w' & ed2 & ed' & evs & Hst & _ & He' & Ht & _ & Habsent).
  destruct (Habsent eq_refl eq_refl Hresolve) as (_ & _ & Hquiet & Hret).
  exists w', ed', evs. destruct Hst as (_ & _ & _ & _ & Hw).
  split; [exact Hw|]. split; [exact He'|]. split; [exact Ht|].
  split; [exact Hquiet|]. by apply Hret.
Defined.

(** C6 at [value: ''], an initial value supplied as markup. The empty
    string is deserialized into the document (and the empty result replaced
    by the default document), yet [pipeNormalizeInitialValue] is not called:
    the calls of the whole construction are the three listed. *)
Lemma empty_markup_skips_initial_normalization :
  ∃ w' root,
    withSlate 0 Sample.empty_markup_options (Sample.world Sample.bare)
    = Returns 0 w' ∧
    trace w' = [CallResolvePlugins [root]; CallDeserialize EmptyString; CallCreateValue].
Proof.
  eexists _, _. split; [vm_compute; reflexivity|]. vm_compute. reflexivity.
Qed.

(** ** The further properties on concrete inputs *)

(** Writing [mode] on the store of [list] leaves [limit] as it reads. *)
Lemma setOption_writes_only_its_field_witness :
  ("mode" ∈ Store.fields Sample.list_store) ∧
  ("limit" ∈ Store.fields Sample.list_store) ∧
  ∃ w',
    setOption 0 (mkRef "list") "mode" (Js.Str "nested")
              (Sample.world Sample.resolved) = Returns tt w' ∧
    returned (getOption 0 (mkRef "list") "limit" [] w')
    = returned (getOption 0 (mkRef "list") "limit" []
                          (Sample.world Sample.resolved)).
Proof.
  assert (Hmode : "mode" ∈ Store.fields Sample.list_store)
    by (vm_compute; reflexivity).
  assert (Hlimit : "limit" ∈ Store.fields Sample.list_store)
    by (vm_compute; reflexivity).
  assert (Hl : Plugin.optionsStore
                 (getSlatePlugin Sample.resolved (mkRef "list")) = Some 7)
    by reflexivity.
  assert (Hne : "limit" ≠ "mode") by discriminate.
  assert (Hstate : "mode" ≠ "state") by discriminate.
  assert (Hmerge : "mode" ≠ "mergeState") by discriminate.
  assert (Hostate : "limit" ≠ "state") by discriminate.
  split; [exact Hmode|]. split; [exact Hlimit|].
  destruct (setOption_writes_only_its_field
              (Sample.world Sample.resolved) 0 Sample.resolved (mkRef "list") 7
              Sample.list_store "mode" "limit" (Js.Str "nested") []
              eq_refl Hl eq_refl Hmode Hlimit Hne Hstate Hmerge Hostate)
    as (w' & Hset & _ & Hsame).
  exists w'. auto.
Defined.

(** Writing on the store of [list] is not seen through [link]. *)
Lemma setOption_leaves_other_plugins_witness :
  Plugin.optionsStore (getSlatePlugin Sample.resolved (mkRef "link")) ≠ Some 7 ∧
  ∃ w',
    setOption 0 (mkRef "list") "mode" (Js.Str "nested")
              (Sample.world Sample.resolved) = Returns tt w' ∧
    returned (getOptions 0 (mkRef "link") w')
    = returned (getOptions 0 (mkRef "link") (Sample.world Sample.resolved)).
Proof.
  assert (Hl : Plugin.optionsStore
                 (getSlatePlugin Sample.resolved (mkRef "list")) = Some 7)
    by reflexivity.
  assert (Hother : Plugin.optionsStore
                     (getSlatePlugin Sample.resolved (mkRef "link")) ≠ Some 7)
    by (vm_compute; discriminate).
  split; [exact Hother|].
  destruct (setOption_leaves_other_plugins
              (Sample.world Sample.resolved) 0 Sample.resolved (mkRef "list")
              (mkRef "link") 7 Sample.list_store "mode" (Js.Str "nested")
              eq_refl Hl eq_refl Hother)
    as (w' & Hset & Hsame & _).
  exists w'. auto.
Defined.

(** Two writes to [mode] on the store of [list]. *)
Lemma setOption_last_write_wins_witness :
  (setOption 0 (mkRef "list") "mode" (Js.Str "nested");;
   setOption 0 (mkRef "list") "mode" (Js.Str "flat"))
    (Sample.world Sample.resolved)
  = setOption 0 (mkRef "list") "mode" (Js.Str "flat")
              (Sample.world Sample.resolved).
Proof.
  assert (Hmode : "mode" ∈ Store.fields Sample.list_store)
    by (vm_compute; reflexivity).
  assert (Hl : Plugin.optionsStore
                 (getSlatePlugin Sample.resolved (mkRef "list")) = Some 7)
    by reflexivity.
  assert (Hstate : "mode" ≠ "state") by discriminate.
  assert (Hmerge : "mode" ≠ "mergeState") by discriminate.
  exact (setOption_last_write_wins
           (Sample.world Sample.resolved) 0 Sample.resolved (mkRef "list") 7
           Sample.list_store "mode" (Js.Str "nested") (Js.Str "flat")
           eq_refl Hl eq_refl Hmode Hstate Hmerge).
Defined.

(** Both readers on the store of [list] and on the bag of [link]. *)
Lemma getOption_agrees_with_getOptions_witness :
  (∃ snapshot,
      getOptions 0 (mkRef "list") (Sample.world Sample.resolved)
      = Returns snapshot (Sample.world Sample.resolved) ∧
      getOption 0 (mkRef "list") "limit" [] (Sample.world Sample.resolved)
      = Returns (Js.read snapshot "limit") (Sample.world Sample.resolved)) ∧
  (∃ bag,
      getOptions 0 (mkRef "link") (Sample.world Sample.resolved)
      = Returns bag (Sample.world Sample.resolved) ∧
      getOption 0 (mkRef "link") "rel" [] (Sample.world Sample.resolved)
      = Returns (Js.read bag "rel") (Sample.world Sample.resolved)).
Proof.
  assert (Hlimit : "limit" ∈ Store.fields Sample.list_store)
    by (vm_compute; reflexivity).
  assert (Hl : Plugin.optionsStore
                 (getSlatePlugin Sample.resolved (mkRef "list")) = Some 7)
    by reflexivity.
  assert (Hbag : Plugin.optionsStore
                   (getSlatePlugin Sample.resolved (mkRef "link")) = None)
    by reflexivity.
  assert (Hstate : "limit" ≠ "state") by discriminate.
  split.
  - exact (proj1 (getOption_agrees_with_getOptions
                    (Sample.world Sample.resolved) 0 Sample.resolved
                    (mkRef "list") "limit" [] eq_refl)
                 7 Sample.list_store Hl eq_refl Hlimit Hstate).
  - destruct (proj2 (getOption_agrees_with_getOptions
                       (Sample.world Sample.resolved) 0 Sample.resolved
                       (mkRef "link") "rel" [] eq_refl) Hbag)
      as (bag & Hall & Hone & _).
    exists bag. auto.
Defined.

(** [setOptions(list, 3)] on the sample editor. *)
Lemma setOptions_primitive_does_nothing_witness :
  setOptions 0 (mkRef "list") (PatchPrimitive (PNum 3))
             (Sample.world Sample.resolved)
  = Returns tt (Sample.world Sample.resolved).
Proof.
  exact (setOptions_primitive_does_nothing
           (Sample.world Sample.resolved) 0 Sample.resolved (mkRef "list")
           (PNum 3) eq_refl).
Defined.

(** [getInjectProps] of a plugin without [inject] rules. *)
Lemma getInjectProps_never_nullish_witness :
  ∃ props,
    getInjectProps 0 (mkRef "list") (Sample.world Sample.resolved)
    = Returns props (Sample.world Sample.resolved) ∧
    Js.nullish props = false.
Proof.
  destruct (getInjectProps_never_nullish
              (Sample.world Sample.resolved) 0 Sample.resolved (mkRef "list")
              eq_refl)
    as (props & Hget & Hnot & _).
  exists props. auto.
Defined.

(** Constructing from the markup of one paragraph. *)
Lemma markup_value_is_deserialized_witness :
  Options.value Sample.markup_options = Some (Markup "<p>hello</p>") ∧
  ∃ w2 w3 w4 w' ed3,
    stages 0 Sample.markup_options (Sample.world Sample.bare) w2 w3 w4 w' ∧
    editors w3 !! 0 = Some ed3 ∧
    Editor.children ed3 = Some [Sample.paragraph "<p>hello</p>"].
Proof.
  split; [reflexivity|].
  destruct (markup_value_is_deserialized
              (Sample.world Sample.bare) 0 Sample.bare Sample.markup_options
              "<p>hello</p>" eq_refl eq_refl)
    as (w2 & w3 & w4 & w' & ed2 & ed3 & Hst & _ & He3 & Hdoc).
  exists w2, w3, w4, w', ed3. split; [exact Hst|]. split; [exact He3|].
  cbn in Hdoc. destruct Hdoc as [-> _]. reflexivity.
Defined.

(** Constructing from a one-paragraph tree. *)
Lemma tree_value_is_used_directly_witness :
  Options.value Sample.start_options = Some (Tree [Sample.paragraph "hello"]) ∧
  ∃ w2 w3 w4 w',
    stages 0 Sample.start_options (Sample.world Sample.bare) w2 w3 w4 w' ∧
    trace w3 = trace w2.
Proof.
  split; [reflexivity|].
  destruct (tree_value_is_used_directly
              (Sample.world Sample.bare) 0 Sample.bare Sample.start_options
              (Sample.paragraph "hello") [] eq_refl eq_refl)
    as (w2 & w3 & w4 & w' & ed2 & Hst & _ & _ & Ht & _).
  exists w2, w3, w4, w'. auto.
Defined.

(** Constructing with no options on an editor whose children are the empty
    list. *)
Lemma no_value_keeps_or_defaults_children_witness :
  Options.value (Options.empty (P := Sample.Descriptor)) = None ∧
  ∃ w' evs,
    withSlate 0 Options.empty (Sample.world Sample.blank) = Returns 0 w' ∧
    trace w' = trace (Sample.world Sample.blank) ++ evs ∧
    existsb is_normalize_initial_call evs = false.
Proof.
  split; [reflexivity|].
  destruct (no_value_keeps_or_defaults_children
              (Sample.world Sample.blank) 0 Sample.blank Options.empty
              eq_refl eq_refl)
    as (w2 & w3 & w4 & w' & ed2 & ed3 & evs & Hst & _ & _ & Ht & Hq & _).
  destruct Hst as (_ & _ & _ & _ & Hw).
  exists w', evs. auto.
Defined.

(** Constructing with [shouldNormalizeEditor: true]. *)
Lemma full_normalization_is_last_witness :
  Options.shouldNormalizeEditor Sample.markup_options = Some true ∧
  ∃ w' earlier,
    withSlate 0 Sample.markup_options (Sample.world Sample.bare)
    = Returns 0 w' ∧
    trace w' = trace (Sample.world Sample.bare)
               ++ earlier ++ [CallNormalizeEditor true].
Proof.
  split; [reflexivity|].
  destruct (full_normalization_is_last
              (Sample.world Sample.bare) 0 Sample.bare Sample.markup_options
              eq_refl)
    as (w' & ed' & evs & Hw & _ & Ht & Hlast).
  cbn in Hlast. destruct Hlast as (before & earlier & -> & _).
  exists w', earlier. auto.
Defined.

(** The calls of a construction with markup, auto-select and full
    normalization. *)
Lemma calls_follow_the_pipeline_witness :
  ∃ w' rest,
    withSlate 0 Sample.markup_options (Sample.world Sample.bare)
    = Returns 0 w' ∧
    StronglySorted lt
      (stage_of <$> CallResolvePlugins
                      [rootPluginInstance Sample.markup_options] :: rest).
Proof.
  destruct (calls_follow_the_pipeline
              (Sample.world Sample.bare) 0 Sample.bare Sample.markup_options
              eq_refl)
    as (w' & rest & Hw & _ & Hsorted & _).
  exists w', rest. auto.
Defined.

(** The identity step twice on the bare sample editor. *)
Lemma assignIdentity_idempotent_witness :
  (∀ n, Js.nullish (Math_random (P := Sample.Descriptor) n) = false) ∧
  ∃ w1,
    assignIdentity 0 Sample.start_options (Sample.world Sample.bare)
    = Returns tt w1 ∧
    assignIdentity 0 Sample.start_options w1 = Returns tt w1.
Proof.
  assert (Hrandom : ∀ n, Js.nullish (Math_random (P := Sample.Descriptor) n)
                         = false) by (intros; reflexivity).
  split; [exact Hrandom|].
  exact (assignIdentity_idempotent
           (Sample.world Sample.bare) 0 Sample.bare Sample.start_options
           eq_refl Hrandom).
Defined.

(** The editor returned for markup with full normalization. *)
Lemma returned_editor_after_normalization_witness :
  ∃ w2 w3 w4 w' ed4 ed',
    stages 0 Sample.markup_options (Sample.world Sample.bare) w2 w3 w4 w' ∧
    editors w4 !! 0 = Some ed4 ∧
    editors w' !! 0 = Some ed' ∧
    ed' = normalizeEditor (pipeNormalizeInitialValue ed4) true.
Proof.
  destruct (returned_editor_after_normalization
              (Sample.world Sample.bare) 0 Sample.bare Sample.markup_options
              eq_refl)
    as (w2 & w3 & w4 & w' & ed4 & ed' & Hst & H4 & He' & Hret).
  cbn in Hret. destruct Hret as [Hed _].
  exists w2, w3, w4, w', ed4, ed'. auto.
Defined.
